(** * linear_stats.py: regression and correlation over the lines of a file

    A shallow embedding of [src/linear_stats.py] and the properties its
    specification states about it.

    The program is Python, so the embedding has two layers.

    - [Py] fixes the part of the interpreter the program relies on: the
      exceptions it can meet, the numeric tower restricted to [int] and
      [float] with its mixed arithmetic, [sum], [math.sqrt], [str.strip],
      [float(str)] and fixed-point formatting.  Floats are the kernel's
      binary64 numbers, so every definition runs on concrete inputs.
    - [LinearStats] is the program itself, function by function, in an error
      monad: a raised exception is the [Raise] branch of [result].

    [Spec] holds the formulas of the specification, written from its words,
    to be compared with the code.

    Modelling choices of the interpreter layer, all of them about built-ins and
    none about the program's own code:

    - text is ASCII ([string]); for such files decoding as utf-8 is the
      identity.  Whitespace and digits outside ASCII are not modelled;
    - [sum] adds from left to right starting from the integer 0, as the
      language reference describes it.  CPython 3.12 and later compensate the
      rounding error of float sums, which can change low-order bits; the
      concrete inputs used below have sums on which both agree;
    - the square of a float ([v ** 2]) is the correctly rounded product, with
      [OverflowError] when it overflows, as the C library's [pow] delivers it.

    Statements about all floats rest on the standard library's specification
    of the primitive operations ([FloatAxioms]); statements about given
    inputs are computed. *)

From Stdlib Require Import ZArith List String Ascii Bool Lia Floats DecimalString.
Import ListNotations.

(* ================================================================= *)
(** ** The interpreter layer *)

Module Py.

Local Open Scope string_scope.

(** *** Exceptions and the error monad *)

Inductive exn : Type :=
| ValueError (msg : string)
| OverflowError (msg : string)
| ZeroDivisionError (msg : string)
| IndexError (msg : string)
| OSError (msg : string).

(** [str(e)] *)
Definition exn_str (e : exn) : string :=
  match e with
  | ValueError m | OverflowError m | ZeroDivisionError m
  | IndexError m | OSError m => m
  end.

Definition is_ValueError (e : exn) : bool :=
  match e with ValueError _ => true | _ => false end.

Definition is_overflow (e : exn) : bool :=
  match e with OverflowError _ => true | _ => false end.

Inductive result (A : Type) : Type :=
| Ok (a : A)
| Raise (e : exn).

Arguments Ok {A} a.
Arguments Raise {A} e.

Definition bind {A B : Type} (r : result A) (k : A -> result B) : result B :=
  match r with
  | Ok a => k a
  | Raise e => Raise e
  end.

Notation "x <- e ;; k" := (bind e (fun x => k))
  (at level 61, e at next level, right associativity).

Notation "' p <- e ;; k" := (bind e (fun p => k))
  (at level 61, p pattern, e at next level, right associativity).

(** *** Numbers: [int] and [float] *)

Inductive num : Type :=
| Int (z : Z)
| Flt (f : float).

(** An integer as an unrounded binary number, mantissa times [2^0]. *)
Definition Z2SF (z : Z) : spec_float :=
  match z with
  | Z0 => S754_zero false
  | Zpos p => S754_finite false p 0
  | Zneg p => S754_finite true p 0
  end.

(** Conversion of an [int] operand in mixed arithmetic: correctly rounded,
    [OverflowError] when the rounded value is not finite. *)
Definition float_of_Z (z : Z) : result float :=
  match binary_normalize prec emax z 0 false with
  | S754_infinity _ => Raise (OverflowError "int too large to convert to float")
  | sf => Ok (SF2Prim sf)
  end.

(** What rounding gives for a mantissa of 53 digits: a finite number while
    the exponent is in range, an infinity beyond. *)
Definition finite_or_infinite (s : bool) (m : positive) (e : Z) : spec_float :=
  if (e <=? 971)%Z then S754_finite s m e else S754_infinity s.

Definition as_float (a : num) : result float :=
  match a with
  | Int z => float_of_Z z
  | Flt f => Ok f
  end.

(** [a + b] *)
Definition add (a b : num) : result num :=
  match a, b with
  | Int x, Int y => Ok (Int (x + y))
  | _, _ => fa <- as_float a ;; fb <- as_float b ;; Ok (Flt (fa + fb))
  end.

(** [a - b] *)
Definition sub (a b : num) : result num :=
  match a, b with
  | Int x, Int y => Ok (Int (x - y))
  | _, _ => fa <- as_float a ;; fb <- as_float b ;; Ok (Flt (fa - fb))
  end.

(** [a * b] *)
Definition mul (a b : num) : result num :=
  match a, b with
  | Int x, Int y => Ok (Int (x * y))
  | _, _ => fa <- as_float a ;; fb <- as_float b ;; Ok (Flt (fa * fb))
  end.

(** [a / b], true division: always a float.  Two ints give the correctly
    rounded quotient of the exact integers. *)
Definition truediv (a b : num) : result float :=
  match a, b with
  | Int x, Int y =>
      if (y =? 0)%Z then Raise (ZeroDivisionError "division by zero")
      else match SFdiv prec emax (Z2SF x) (Z2SF y) with
           | S754_infinity _ =>
               Raise (OverflowError "integer division result too large for a float")
           | sf => Ok (SF2Prim sf)
           end
  | _, _ =>
      fa <- as_float a ;; fb <- as_float b ;;
      if is_zero fb then Raise (ZeroDivisionError "float division by zero")
      else Ok (fa / fb)%float
  end.

(** [a ** 2] *)
Definition pow2 (a : num) : result num :=
  match a with
  | Int x => Ok (Int (x * x))
  | Flt f =>
      if is_nan f then Ok (Flt f)
      else if is_infinity f then Ok (Flt infinity)
      else let r := (f * f)%float in
           if is_infinity r
           then Raise (OverflowError "(34, 'Numerical result out of range')")
           else Ok (Flt r)
  end.

(** Whether a number is a NaN or an infinity. *)
Definition not_finite (a : num) : bool :=
  match a with Int _ => false | Flt f => is_nan f || is_infinity f end.

(** [a == 0] *)
Definition eq_zero (a : num) : bool :=
  match a with
  | Int z => (z =? 0)%Z
  | Flt f => is_zero f
  end.

(** [math.sqrt(a)]: the argument is converted to a float; a NaN result from an
    argument that is not NaN is a domain error. *)
Definition math_sqrt (a : num) : result float :=
  fa <- as_float a ;;
  let r := sqrt fa in
  if is_nan r && negb (is_nan fa) then Raise (ValueError "math domain error")
  else Ok r.

(** [sum(f(a) for a in l)], the accumulator starting at [acc]: each item is
    produced, then added, before the next one is looked at. *)
Fixpoint sum_from {A : Type} (f : A -> result num) (l : list A) (acc : num)
  : result num :=
  match l with
  | [] => Ok acc
  | a :: l' => v <- f a ;; acc' <- add acc v ;; sum_from f l' acc'
  end.

(** [sum(f(a) for a in l)] *)
Definition sum_gen {A : Type} (f : A -> result num) (l : list A) : result num :=
  sum_from f l (Int 0).

(** [sum(l)] *)
Definition sum (l : list num) : result num := sum_gen Ok l.

(** [len(l)] *)
Definition len {A : Type} (l : list A) : num := Int (Z.of_nat (List.length l)).

(** [list(range(n))] *)
Definition range (n : nat) : list num := map (fun i => Int (Z.of_nat i)) (seq 0 n).

(** *** Text *)

Definition code (c : ascii) : N := N_of_ascii c.

(** [c.isspace()] on ASCII: tab, line feed, vertical tab, form feed, carriage
    return, the four separators 28..31 and the space. *)
Definition is_space (c : ascii) : bool :=
  let n := code c in
  ((9 <=? n) && (n <=? 13) || (28 <=? n) && (n <=? 32))%N.

Definition is_digit (c : ascii) : bool :=
  let n := code c in ((48 <=? n) && (n <=? 57))%N.

Definition digit_val (c : ascii) : Z := Z.of_N (code c) - 48.

Definition is_empty (s : string) : bool :=
  match s with EmptyString => true | _ => false end.

Fixpoint lstrip (s : string) : string :=
  match s with
  | String c s' => if is_space c then lstrip s' else s
  | EmptyString => EmptyString
  end.

Fixpoint rstrip (s : string) : string :=
  match s with
  | String c s' =>
      let r := rstrip s' in
      if is_space c && is_empty r then EmptyString else String c r
  | EmptyString => EmptyString
  end.

(** [s.strip()] *)
Definition strip (s : string) : string := rstrip (lstrip s).

(** [str(n)] for a non-negative integer *)
Definition str_of_nat (n : nat) : string := NilZero.string_of_uint (Nat.to_uint n).
Definition str_of_N (n : N) : string := NilZero.string_of_uint (N.to_uint n).

(** *** [float(s)] for a string

    The accepted syntax, after stripping: an optional sign followed by
    [inf], [infinity] or [nan] in any letter case, or by a decimal number:
    digits with an optional fraction, or a fraction alone, and an optional
    exponent.  Single underscores may separate digits.  The value is the
    double nearest to the decimal number, ties to even, infinite when it is
    too large. *)

(** Underscores may only stand between two digits; they are dropped. *)
Fixpoint drop_underscores (prev : ascii) (s : string) : option string :=
  match s with
  | EmptyString => if Ascii.eqb prev "_" then None else Some EmptyString
  | String c s' =>
      if Ascii.eqb c "_" then
        if is_digit prev then drop_underscores c s' else None
      else if Ascii.eqb prev "_" && negb (is_digit c) then None
      else option_map (String c) (drop_underscores c s')
  end.

Definition take_sign (s : string) : bool * string :=
  match s with
  | String "-" r => (true, r)
  | String "+" r => (false, r)
  | _ => (false, s)
  end.

(** The longest prefix of digits: its value appended to [acc], the number of
    digits added to [n], and what follows. *)
Fixpoint take_digits (s : string) (acc : Z) (n : nat) : Z * nat * string :=
  match s with
  | String c s' =>
      if is_digit c then take_digits s' (10 * acc + digit_val c) (S n)
      else (acc, n, s)
  | EmptyString => (acc, n, s)
  end.

Definition lower (c : ascii) : ascii :=
  let n := code c in
  if ((65 <=? n) && (n <=? 90))%N then ascii_of_N (n + 32) else c.

Fixpoint lower_str (s : string) : string :=
  match s with
  | String c s' => String (lower c) (lower_str s')
  | EmptyString => EmptyString
  end.

Definition inf_or_nan (neg : bool) (s : string) : option float :=
  let l := lower_str s in
  if (l =? "inf") || (l =? "infinity")
  then Some (if neg then neg_infinity else infinity)
  else if l =? "nan" then Some nan
  else None.

(** What may follow the mantissa: nothing, or [e], an optional sign and at
    least one digit. *)
Definition exponent (s : string) : option Z :=
  match s with
  | EmptyString => Some 0%Z
  | String c r =>
      if Ascii.eqb (lower c) "e" then
        let '(neg, r1) := take_sign r in
        let '(v, n, r2) := take_digits r1 0 0 in
        if negb (n =? 0)%nat && is_empty r2 then Some (if neg then - v else v)%Z
        else None
      else None
  end.

(** A decimal number as its digits read as an integer and a power of ten. *)
Definition decimal (s : string) : option (Z * Z) :=
  let '(ip, ni, r1) := take_digits s 0 0 in
  let '(m, nf, r2) :=
    match r1 with
    | String "." r => take_digits r ip 0
    | _ => (ip, 0%nat, r1)
    end in
  if (ni + nf =? 0)%nat then None
  else match exponent r2 with
       | Some e => Some (m, e - Z.of_nat nf)%Z
       | None => None
       end.

(** The double nearest to [(-1)^neg * m * 10^e], for [0 <= m]. *)
Definition float_of_decimal (neg : bool) (m e : Z) : float :=
  SF2Prim
    (if (0 <=? e)%Z
     then binary_normalize prec emax (cond_Zopp neg (m * 10 ^ e)) 0 neg
     else SFdiv prec emax (Z2SF (cond_Zopp neg m)) (Z2SF (10 ^ (- e)))).

Definition float_of_str (s : string) : option float :=
  match drop_underscores "000" (strip s) with
  | None => None
  | Some t =>
      let '(neg, r) := take_sign t in
      match inf_or_nan neg r with
      | Some f => Some f
      | None =>
          match decimal r with
          | Some (m, e) => Some (float_of_decimal neg m e)
          | None => None
          end
      end
  end.

(** *** [format(f, ".<p>f")]

    The exact value of the double, rounded to [p] decimals, ties to even; the
    sign is the sign bit, also of a zero and of a value that rounds to zero. *)

(** [n / d] rounded to the nearest integer, ties to even, for [0 <= n], [0 < d]. *)
Definition round_half_even (n d : Z) : Z :=
  let q := (n / d)%Z in
  match (2 * (n mod d) ?= d)%Z with
  | Lt => q
  | Gt => (q + 1)%Z
  | Eq => if Z.even q then q else (q + 1)%Z
  end.

(** [m * 2^e * 10^p] rounded to an integer. *)
Definition scaled (p : nat) (m : positive) (e : Z) : Z :=
  let n := (Zpos m * 10 ^ Z.of_nat p)%Z in
  if (0 <=? e)%Z then (n * 2 ^ e)%Z else round_half_even n (2 ^ (- e)).

Fixpoint zeros (n : nat) : string :=
  match n with
  | O => EmptyString
  | S n' => String "0" (zeros n')
  end.

(** The digits of [v / 10^p] with [p] decimals. *)
Definition fixed_digits (p : nat) (v : Z) : string :=
  let s := str_of_N (Z.to_N v) in
  let s' := zeros (p + 1 - String.length s) ++ s in
  let k := (String.length s' - p)%nat in
  if (p =? 0)%nat then s' else substring 0 k s' ++ "." ++ substring k p s'.

Definition format_f (p : nat) (f : float) : string :=
  match Prim2SF f with
  | S754_nan => "nan"
  | S754_infinity s => if s then "-inf" else "inf"
  | S754_zero s => (if s then "-" else "") ++ fixed_digits p 0
  | S754_finite s m e => (if s then "-" else "") ++ fixed_digits p (scaled p m e)
  end.

End Py.

(* ================================================================= *)
(** ** The program *)

Module LinearStats.

Import Py.
Local Open Scope string_scope.

(** What [open(path)] gives: the lines of the file, each with its line
    terminator, or the [OSError] raised when it cannot be opened. *)
Definition file_system : Type := string -> result (list string).

(** The loop of [parse_file] over the lines still to be read; [line_no] is the
    number of the first of them and [values] the list built so far. *)
Fixpoint parse_lines (line_no : nat) (lines : list string) (values : list float)
  : result (list float) :=
  match lines with
  | [] => Ok values
  | line :: rest =>
      let stripped := strip line in
      if is_empty stripped then parse_lines (S line_no) rest values
      else match float_of_str stripped with
           | Some v => parse_lines (S line_no) rest (values ++ [v])
           | None =>
               Raise (ValueError ("Unable to parse line " ++ str_of_nat line_no
                                    ++ ": '" ++ stripped ++ "'"))
           end
  end.

Definition parse_file (fs : file_system) (path : string) : result (list float) :=
  lines <- fs path ;;
  parse_lines 1 lines [].

Definition regression_error : exn :=
  ValueError "Cannot compute linear regression: denominator is zero".

Definition linear_regression (x y : list num) : result (float * float) :=
  let n := len x in
  sum_x <- sum x ;;
  sum_y <- sum y ;;
  sum_xy <- sum_gen (fun '(x_i, y_i) => mul x_i y_i) (combine x y) ;;
  sum_x2 <- sum_gen pow2 x ;;
  n_sum_x2 <- mul n sum_x2 ;;
  sq_sum_x <- pow2 sum_x ;;
  denominator <- sub n_sum_x2 sq_sum_x ;;
  if eq_zero denominator then Raise regression_error
  else
    n_sum_xy <- mul n sum_xy ;;
    sum_x_sum_y <- mul sum_x sum_y ;;
    numerator <- sub n_sum_xy sum_x_sum_y ;;
    m <- truediv numerator denominator ;;
    m_sum_x <- mul (Flt m) sum_x ;;
    rest <- sub sum_y m_sum_x ;;
    b <- truediv rest n ;;
    Ok (m, b).

Definition correlation_error : exn :=
  ValueError "Cannot compute Pearson correlation: denominator is zero".

Definition pearson_correlation (x y : list num) : result float :=
  let n := len x in
  sum_x <- sum x ;;
  sum_y <- sum y ;;
  sum_xy <- sum_gen (fun '(x_i, y_i) => mul x_i y_i) (combine x y) ;;
  sum_x2 <- sum_gen pow2 x ;;
  sum_y2 <- sum_gen pow2 y ;;
  n_sum_xy <- mul n sum_xy ;;
  sum_x_sum_y <- mul sum_x sum_y ;;
  numerator <- sub n_sum_xy sum_x_sum_y ;;
  n_sum_x2 <- mul n sum_x2 ;;
  sq_sum_x <- pow2 sum_x ;;
  var_x <- sub n_sum_x2 sq_sum_x ;;
  n_sum_y2 <- mul n sum_y2 ;;
  sq_sum_y <- pow2 sum_y ;;
  var_y <- sub n_sum_y2 sq_sum_y ;;
  radicand <- mul var_x var_y ;;
  denominator <- math_sqrt radicand ;;
  if is_zero denominator then Raise correlation_error
  else truediv numerator (Flt denominator).

(** What a call of [main] leaves behind: the lines printed on each stream and
    the value returned, or the exception that left [main]. *)
Record outcome : Type := {
  stdout : list string;
  stderr : list string;
  returned : result Z
}.

Definition fail (message : string) : outcome :=
  {| stdout := []; stderr := [message]; returned := Ok 1%Z |}.

Definition regression_line (m b : float) : string :=
  "Linear Regression Line: y = " ++ format_f 6 m ++ "x + " ++ format_f 6 b.

Definition correlation_line (r : float) : string :=
  "Pearson Correlation Coefficient: " ++ format_f 10 r.

(** The body of the [try] statement of [main]: the indices are the x values. *)
Definition statistics (y_values : list float) : result (float * float * float) :=
  let x_values := range (List.length y_values) in
  let y := map Flt y_values in
  '(m, b) <- linear_regression x_values y ;;
  r <- pearson_correlation x_values y ;;
  Ok (m, b, r).

Definition main (fs : file_system) (argv : list string) : outcome :=
  if negb (List.length argv =? 2)%nat then
    match argv with
    | [] => {| stdout := []; stderr := [];
               returned := Raise (IndexError "list index out of range") |}
    | program :: _ => fail ("Usage: " ++ program ++ " <data_file>")
    end
  else
    let data_file := nth 1 argv "" in
    match parse_file fs data_file with
    | Raise e => fail ("Error reading file: " ++ exn_str e)
    | Ok y_values =>
        match y_values with
        | [] => fail "Error: No data found in file"
        | _ :: _ =>
            match statistics y_values with
            | Raise (ValueError msg) => fail ("Error computing statistics: " ++ msg)
            | Raise e => {| stdout := []; stderr := []; returned := Raise e |}
            | Ok (m, b, r) =>
                {| stdout := [regression_line m b; correlation_line r];
                   stderr := [];
                   returned := Ok 0%Z |}
            end
        end
    end.

(** What the interpreter writes on the error stream: a line printed by the
    program, or the traceback of an exception nothing caught. *)
Inductive report : Type :=
| Message (line : string)
| Traceback (e : exn).

(** A finished run of the script: [sys.exit(main(sys.argv))]. *)
Record process : Type := {
  out : list string;
  err : list report;
  exit_code : Z
}.

Definition run (fs : file_system) (argv : list string) : process :=
  let o := main fs argv in
  match returned o with
  | Ok status =>
      {| out := stdout o; err := map Message (stderr o); exit_code := status |}
  | Raise e =>
      {| out := stdout o; err := map Message (stderr o) ++ [Traceback e];
         exit_code := 1 |}
  end.

(** A file system holding one file. *)
Definition one_file (name : string) (lines : list string) : file_system :=
  fun path =>
    if path =? name then Ok lines
    else Raise (OSError ("[Errno 2] No such file or directory: '" ++ path ++ "'")).

End LinearStats.

(* ================================================================= *)
(** ** The specification's formulas

    A second set of definitions, written from the words of the specification
    and not from the code: the sums are indexed sums over [0 .. n-1], added
    from left to right, and the statistics are the formulas of its sections
    4.2 and 4.3 over these sums, in the arithmetic of [Py]. *)

Module Spec.

Import Py.

(** [term 0 + term 1 + ... + term (n-1)], from left to right *)
Definition sigma (n : nat) (term : nat -> result num) : result num :=
  sum_gen term (seq 0 n).

(** [l_i] *)
Definition item (l : list num) (i : nat) : num := nth i l (Int 0).

(** The formulas over given sums [Sx], [Sy], [Sxy], [Sxx], [Syy] and count [n]. *)
Section OverSums.

Variables n Sx Sy Sxy Sxx Syy : num.

(** [n*Sxx - Sx^2] *)
Definition variance_term (S SS : num) : result num :=
  a <- mul n SS ;; b <- pow2 S ;; sub a b.

(** [n*Sxy - Sx*Sy] *)
Definition numerator_of : result num :=
  a <- mul n Sxy ;; b <- mul Sx Sy ;; sub a b.

(** [m = (n*Sxy - Sx*Sy) / denominator] *)
Definition slope_of (denominator : num) : result float :=
  num <- numerator_of ;; truediv num denominator.

(** [b = (Sy - m*Sx) / n] *)
Definition intercept_of (m : float) : result float :=
  a <- mul (Flt m) Sx ;; c <- sub Sy a ;; truediv c n.

(** [sqrt((n*Sxx - Sx^2) * (n*Syy - Sy^2))] *)
Definition root_of : result float :=
  vx <- variance_term Sx Sxx ;; vy <- variance_term Sy Syy ;;
  p <- mul vx vy ;; math_sqrt p.

End OverSums.

(** The sums of two sequences of the same length [n]. *)
Section OfSequences.

Variables x y : list num.

Definition n : nat := List.length x.
Definition count : num := Int (Z.of_nat n).
Definition Sx : result num := sigma n (fun i => Ok (item x i)).
Definition Sy : result num := sigma n (fun i => Ok (item y i)).
Definition Sxy : result num := sigma n (fun i => mul (item x i) (item y i)).
Definition Sxx : result num := sigma n (fun i => pow2 (item x i)).
Definition Syy : result num := sigma n (fun i => pow2 (item y i)).

(** [denominator = n*Sxx - Sx^2] *)
Definition regression_denominator : result num :=
  sx <- Sx ;; sxx <- Sxx ;; variance_term count sx sxx.

Definition slope : result float :=
  sx <- Sx ;; sy <- Sy ;; sxy <- Sxy ;; d <- regression_denominator ;;
  slope_of count sx sy sxy d.

Definition intercept (m : float) : result float :=
  sx <- Sx ;; sy <- Sy ;; intercept_of count sx sy m.

(** [numerator = n*Sxy - Sx*Sy] *)
Definition numerator : result num :=
  sx <- Sx ;; sy <- Sy ;; sxy <- Sxy ;; numerator_of count sx sy sxy.

(** [denominator = sqrt((n*Sxx - Sx^2) * (n*Syy - Sy^2))] *)
Definition correlation_denominator : result float :=
  sx <- Sx ;; sy <- Sy ;; sxx <- Sxx ;; syy <- Syy ;;
  root_of count sx sy sxx syy.

(** [r = numerator / denominator] *)
Definition r : result float :=
  num <- numerator ;; d <- correlation_denominator ;; truediv num (Flt d).

End OfSequences.

(** The sum of a list of integers. *)
Definition int_sum (l : list Z) : Z := fold_right Z.add 0%Z l.

(** The indices [0 .. n-1] as integers. *)
Definition indices (n : nat) : list Z := map Z.of_nat (seq 0 n).

(** The regression denominator of the indices, [n*Sxx - Sx^2] in integers;
    it is [n^2 (n^2 - 1) / 12]. *)
Definition index_denominator (n : nat) : Z :=
  (Z.of_nat n * int_sum (map (fun z => z * z) (indices n))
   - int_sum (indices n) * int_sum (indices n))%Z.

(** The two statistics over given sums, guards included. *)
Definition regression_of (n Sx Sy Sxy Sxx : num) : result (float * float) :=
  d <- variance_term n Sx Sxx ;;
  if eq_zero d then Raise LinearStats.regression_error
  else m <- slope_of n Sx Sy Sxy d ;; b <- intercept_of n Sx Sy m ;; Ok (m, b).

Definition correlation_of (n Sx Sy Sxy Sxx Syy : num) : result float :=
  num <- numerator_of n Sx Sy Sxy ;;
  d <- root_of n Sx Sy Sxx Syy ;;
  if is_zero d then Raise LinearStats.correlation_error
  else truediv num (Flt d).

(** The sums of two sequences that need not have the same length: the count
    and the sums of [x] and of its squares range over [x], the sums of [y] and
    of its squares over [y], and the sum of the products over the positions
    both sequences have. *)
Section Mismatched.

Variables x y : list num.

Definition common : nat := Nat.min (List.length x) (List.length y).

Definition sum_of (l : list num) : result num :=
  sigma (List.length l) (fun i => Ok (item l i)).

Definition sum_of_squares (l : list num) : result num :=
  sigma (List.length l) (fun i => pow2 (item l i)).

Definition sum_of_products : result num :=
  sigma common (fun i => mul (item x i) (item y i)).

Definition regression_as_computed : result (float * float) :=
  sx <- sum_of x ;; sy <- sum_of y ;; sxy <- sum_of_products ;;
  sxx <- sum_of_squares x ;;
  regression_of (len x) sx sy sxy sxx.

Definition correlation_as_computed : result float :=
  sx <- sum_of x ;; sy <- sum_of y ;; sxy <- sum_of_products ;;
  sxx <- sum_of_squares x ;; syy <- sum_of_squares y ;;
  correlation_of (len x) sx sy sxy sxx syy.

End Mismatched.

(** The input seen as the specification sees it: the stripped text of the
    lines that are not blank, in file order. *)
Definition texts (lines : list string) : list string :=
  filter (fun s => negb (is_empty s)) (map strip lines).

Definition blank (line : string) : bool := is_empty (strip line).

Definition without_blanks (lines : list string) : list string :=
  filter (fun l => negb (blank l)) lines.

(** The two ways a run may end, in the words of the specification: both
    result lines and exit code 0, or no result line, one report on the error
    stream and exit code 1. *)
Definition success (p : LinearStats.process) : Prop :=
  LinearStats.exit_code p = 0%Z /\ LinearStats.err p = [] /\
  exists m b r,
    LinearStats.out p
    = [LinearStats.regression_line m b; LinearStats.correlation_line r].

Definition failure (p : LinearStats.process) : Prop :=
  LinearStats.exit_code p = 1%Z /\ LinearStats.out p = [] /\
  exists report, LinearStats.err p = [report].

End Spec.

(* ================================================================= *)
(** ** Example inputs *)

Module Examples.

Import Py LinearStats.
Local Open Scope string_scope.

Definition newline : string := String "010" EmptyString.

(** A file of the given lines, each ended by a line feed. *)
Definition file_of (texts : list string) : list string :=
  map (fun t => t ++ newline) texts.

Definition script : string := "linear_stats.py".
Definition data : string := "data.txt".

(** The script run on a file with the given lines. *)
Definition run_on (lines : list string) : process :=
  run (one_file data lines) [script; data].

(** An integer as a line of text. *)
Definition str_of_int (z : Z) : string :=
  if (z <? 0)%Z then "-" ++ str_of_N (Z.abs_N z) else str_of_N (Z.to_N z).

(** The integer constant [c] repeated [n] times: whether the regression over
    the indices returns slope 0 and intercept [c], printed with six decimals,
    and the correlation raises the degenerate-input error. *)
Definition constant_check (c : Z) (n : nat) : bool :=
  match float_of_str (str_of_int c) with
  | Some v =>
      let x := range n in
      let y := repeat (Flt v) n in
      match linear_regression x y, pearson_correlation x y with
      | Ok (m, b), Raise (ValueError msg) =>
          Leibniz.eqb m 0 && Leibniz.eqb b v
          && (regression_line m b
              =? "Linear Regression Line: y = 0.000000x + " ++ str_of_int c
                 ++ ".000000")
          && (msg =? "Cannot compute Pearson correlation: denominator is zero")
      | _, _ => false
      end
  | None => false
  end.

(** The constants [-K .. K], each with the counts [2 .. N]. *)
Definition box (K : Z) (N : nat) : list (Z * nat) :=
  list_prod (map (fun i => (Z.of_nat i - K)%Z) (seq 0 (Z.to_nat (2 * K + 1))))
            (seq 2 (N - 1)).

End Examples.

(* ================================================================= *)
(** ** Classes of inputs

    Descriptions of inputs and of exact integer quantities, used to state
    what the code does on them. *)

Module Inputs.

Import Py Spec.
Local Open Scope string_scope.

(** Whether a text is whitespace only. *)
Fixpoint all_space (s : string) : bool :=
  match s with
  | String c s' => is_space c && all_space s'
  | EmptyString => true
  end.

(** A line with text added in front and behind. *)
Definition padded (pre post line : string) : string := pre ++ line ++ post.

(** Whether all the integers of a list are the same one. *)
Definition all_same (l : list Z) : bool :=
  match l with
  | [] => true
  | a :: l' => forallb (Z.eqb a) l'
  end.

(** [n*Sxx - Sx^2] for a list of integers. *)
Definition spread (l : list Z) : Z :=
  (Z.of_nat (List.length l) * int_sum (map (fun z => z * z) l)
   - int_sum l * int_sum l)%Z.

(** [n*Sxy - Sx*Sy] for two lists of integers. *)
Definition covariation (xs ys : list Z) : Z :=
  (Z.of_nat (List.length xs) * int_sum (map (fun p => fst p * snd p) (combine xs ys))
   - int_sum xs * int_sum ys)%Z.

(** What [v ** 2] raises when the square of a finite float is not finite. *)
Definition range_error : exn :=
  OverflowError "(34, 'Numerical result out of range')".

(** Whether [v ** 2] raises it: the value is finite and its
    square is not. *)
Definition square_overflows (v : float) : bool :=
  negb (is_nan v) && negb (is_infinity v) && is_infinity (v * v).

End Inputs.

(* ================================================================= *)
(** ** The parser *)

Module ParseFacts.

Import Py LinearStats Spec.
Local Open Scope string_scope.

(** A blank line leaves the loop's state alone, apart from the line count. *)
Lemma parse_lines_blank line_no line rest values :
  blank line = true ->
  parse_lines line_no (line :: rest) values = parse_lines (S line_no) rest values.
Proof.
  unfold blank. intros Hb. simpl. now rewrite Hb.
Qed.

Lemma parse_lines_value line_no line rest values v :
  blank line = false ->
  float_of_str (strip line) = Some v ->
  parse_lines line_no (line :: rest) values
  = parse_lines (S line_no) rest (values ++ [v]).
Proof.
  unfold blank. intros Hb Hv. simpl. now rewrite Hb, Hv.
Qed.

Lemma texts_cons line rest :
  texts (line :: rest)
  = if blank line then texts rest else strip line :: texts rest.
Proof.
  unfold texts, blank. simpl. now destruct (is_empty (strip line)).
Qed.

(** The loop succeeds exactly on the values of the non-blank lines: when each
    of their texts is a number, they are appended to the list in order. *)
Lemma parse_lines_texts lines :
  forall line_no values vs,
    map float_of_str (texts lines) = map Some vs ->
    parse_lines line_no lines values = Ok (values ++ vs)%list.
Proof.
  induction lines as [|line rest IH]; intros line_no values vs H.
  - destruct vs; [|discriminate]. now rewrite app_nil_r.
  - rewrite texts_cons in H. destruct (blank line) eqn:Hb.
    + rewrite parse_lines_blank by assumption. now apply IH.
    + destruct vs as [|v vs]; [discriminate|].
      simpl in H. injection H as Hv Hrest.
      rewrite (parse_lines_value _ _ _ _ v) by assumption.
      rewrite (IH _ _ vs Hrest). now rewrite <- app_assoc.
Qed.

Lemma texts_without_blanks lines : texts (without_blanks lines) = texts lines.
Proof.
  induction lines as [|line rest IH]; [reflexivity|].
  unfold without_blanks in *. simpl. rewrite (texts_cons line rest).
  destruct (blank line) eqn:Hb; simpl; [assumption|].
  rewrite texts_cons, Hb. now f_equal.
Qed.

Lemma without_blanks_texts lines :
  map strip (without_blanks lines) = texts lines.
Proof.
  induction lines as [|line rest IH]; [reflexivity|].
  unfold without_blanks in *. simpl. rewrite texts_cons.
  unfold blank at 1. destruct (is_empty (strip line)) eqn:Hb; unfold blank; rewrite Hb; simpl.
  - assumption.
  - now f_equal.
Qed.

(** The first line that is neither blank nor a number ends the loop. *)
Lemma parse_lines_stops before :
  forall line_no values vs bad after,
    map float_of_str (texts before) = map Some vs ->
    blank bad = false ->
    float_of_str (strip bad) = None ->
    parse_lines line_no (before ++ bad :: after) values
    = Raise (ValueError ("Unable to parse line "
                           ++ str_of_nat (line_no + List.length before)
                           ++ ": '" ++ strip bad ++ "'")).
Proof.
  induction before as [|line rest IH]; intros line_no values vs bad after H Hb Hn.
  - simpl. unfold blank in Hb. rewrite Hb, Hn. now rewrite Nat.add_0_r.
  - rewrite texts_cons in H. rewrite <- app_comm_cons.
    replace (line_no + List.length (line :: rest))%nat
      with (S line_no + List.length rest)%nat by (simpl; lia).
    destruct (blank line) eqn:Hl.
    + rewrite parse_lines_blank by assumption. now apply (IH _ _ vs).
    + destruct vs as [|v vs]; [discriminate|].
      simpl in H. injection H as Hv Hrest.
      rewrite (parse_lines_value _ _ _ _ v) by assumption.
      now apply (IH _ _ vs).
Qed.

Lemma lstrip_length s : (String.length (lstrip s) <= String.length s)%nat.
Proof.
  induction s as [|c s IH]; [reflexivity|].
  simpl. destruct (is_space c); simpl; lia.
Qed.

Lemma rstrip_length s : (String.length (rstrip s) <= String.length s)%nat.
Proof.
  induction s as [|c s IH]; [reflexivity|].
  simpl. destruct (is_space c && is_empty (rstrip s)); simpl; lia.
Qed.

(** A line terminator at the end is stripped. *)
Lemma rstrip_terminator s : rstrip (s ++ Examples.newline) = rstrip s.
Proof.
  induction s as [|c s IH]; [reflexivity|].
  simpl. now rewrite IH.
Qed.

(** A text without surrounding whitespace is what is left of its line. *)
Lemma strip_line t : strip t = t -> strip (t ++ Examples.newline) = t.
Proof.
  unfold strip. intros H.
  destruct t as [|c t]; [reflexivity|].
  assert (Hl : lstrip (String c t) = String c t).
  { simpl in *. destruct (is_space c); [|reflexivity].
    exfalso.
    assert (H1 := rstrip_length (lstrip t)). assert (H2 := lstrip_length t).
    rewrite H in H1. simpl in H1. lia. }
  assert (Hc : is_space c = false).
  { simpl in Hl. destruct (is_space c); [|reflexivity].
    exfalso. assert (H2 := lstrip_length t). rewrite Hl in H2. simpl in H2. lia. }
  rewrite Hl in H.
  change (String c t ++ Examples.newline) with (String c (t ++ Examples.newline)).
  cbn [lstrip]. rewrite Hc.
  change (String c (t ++ Examples.newline)) with (String c t ++ Examples.newline).
  now rewrite rstrip_terminator.
Qed.

End ParseFacts.

(* ================================================================= *)
(** ** The orchestration *)

Module MainFacts.

Import Py LinearStats Spec.
Local Open Scope string_scope.

(** [main] with the right number of arguments and a file that parses. *)
Lemma main_parsed fs prog path v vs :
  parse_file fs path = Ok (v :: vs) ->
  main fs [prog; path]
  = match statistics (v :: vs) with
    | Raise (ValueError msg) => fail ("Error computing statistics: " ++ msg)
    | Raise e => {| stdout := []; stderr := []; returned := Raise e |}
    | Ok (m, b, r) =>
        {| stdout := [regression_line m b; correlation_line r];
           stderr := [];
           returned := Ok 0%Z |}
    end.
Proof.
  intros H. unfold main. simpl. now rewrite H.
Qed.

Lemma run_usage fs prog rest :
  List.length (prog :: rest) <> 2%nat ->
  run fs (prog :: rest)
  = {| out := []; err := [Message ("Usage: " ++ prog ++ " <data_file>")];
       exit_code := 1 |}.
Proof.
  intros H. unfold run, main.
  destruct (Nat.eqb_spec (List.length (prog :: rest)) 2) as [E|E]; [contradiction|].
  reflexivity.
Qed.

Lemma run_no_arguments fs :
  run fs [] = {| out := []; err := [Traceback (IndexError "list index out of range")];
                 exit_code := 1 |}.
Proof. reflexivity. Qed.

Lemma run_unreadable fs prog path e :
  parse_file fs path = Raise e ->
  run fs [prog; path]
  = {| out := []; err := [Message ("Error reading file: " ++ exn_str e)];
       exit_code := 1 |}.
Proof.
  intros H. unfold run, main. simpl. now rewrite H.
Qed.

Lemma run_no_data fs prog path :
  parse_file fs path = Ok [] ->
  run fs [prog; path]
  = {| out := []; err := [Message "Error: No data found in file"]; exit_code := 1 |}.
Proof.
  intros H. unfold run, main. simpl. now rewrite H.
Qed.

Lemma run_degenerate fs prog path v vs msg :
  parse_file fs path = Ok (v :: vs) ->
  statistics (v :: vs) = Raise (ValueError msg) ->
  run fs [prog; path]
  = {| out := []; err := [Message ("Error computing statistics: " ++ msg)];
       exit_code := 1 |}.
Proof.
  intros H Hs. unfold run. rewrite (main_parsed _ _ _ _ _ H), Hs. reflexivity.
Qed.

Lemma run_uncaught fs prog path v vs e :
  parse_file fs path = Ok (v :: vs) ->
  statistics (v :: vs) = Raise e ->
  is_ValueError e = false ->
  run fs [prog; path] = {| out := []; err := [Traceback e]; exit_code := 1 |}.
Proof.
  intros H Hs He. unfold run. rewrite (main_parsed _ _ _ _ _ H), Hs.
  destruct e; try discriminate; reflexivity.
Qed.

Lemma run_computed fs prog path v vs m b r :
  parse_file fs path = Ok (v :: vs) ->
  statistics (v :: vs) = Ok (m, b, r) ->
  run fs [prog; path]
  = {| out := [regression_line m b; correlation_line r]; err := []; exit_code := 0 |}.
Proof.
  intros H Hs. unfold run. rewrite (main_parsed _ _ _ _ _ H), Hs. reflexivity.
Qed.

(** The run of a file whose non-blank lines are all numbers depends on these
    values alone. *)
Lemma parse_file_texts fs path lines vs :
  fs path = Ok lines ->
  map float_of_str (texts lines) = map Some vs ->
  parse_file fs path = Ok vs.
Proof.
  intros Hf H. unfold parse_file. rewrite Hf. simpl.
  now rewrite (ParseFacts.parse_lines_texts lines 1 [] vs H).
Qed.

End MainFacts.

(* ================================================================= *)
(** ** The error monad *)

Module MonadFacts.

Import Py.

Lemma bind_assoc {A B C : Type} (r : result A) (f : A -> result B) (g : B -> result C) :
  bind (bind r f) g = bind r (fun a => bind (f a) g).
Proof. now destruct r. Qed.

Lemma bind_Ok {A B : Type} (r : result A) (f : A -> result B) (b : B) :
  bind r f = Ok b -> exists a, r = Ok a /\ f a = Ok b.
Proof. destruct r as [a|e]; [now exists a|discriminate]. Qed.

End MonadFacts.

(* ================================================================= *)
(** ** Rounding an integer to a float *)

Module FloatFacts.

Import Py.
Local Open Scope Z_scope.

Lemma digits2_size p : digits2_pos p = Pos.size p.
Proof. induction p; simpl; congruence. Qed.

(** [digits2_pos] counts the binary digits. *)
Lemma digits2_bounds p :
  2 ^ (Zpos (digits2_pos p) - 1) <= Zpos p < 2 ^ Zpos (digits2_pos p).
Proof.
  rewrite digits2_size.
  assert (H := Z.log2_spec (Zpos p) eq_refl).
  assert (E : Zpos (Pos.size p) = Z.succ (Z.log2 (Zpos p))).
  { destruct p; simpl; lia. }
  rewrite E. replace (Z.succ (Z.log2 (Z.pos p)) - 1) with (Z.log2 (Z.pos p)) by lia.
  exact H.
Qed.

Lemma digits2_unique p k :
  2 ^ (k - 1) <= Zpos p < 2 ^ k -> Zpos (digits2_pos p) = k.
Proof.
  intros [Hlo Hhi]. destruct (digits2_bounds p) as [Dlo Dhi].
  set (d := Zpos (digits2_pos p)) in *.
  assert (0 < d) by (unfold d; lia).
  assert (0 < k).
  { destruct (Z.ltb_spec 0 k); [assumption|].
    assert (2 ^ k <= 2 ^ 0) by (apply Z.pow_le_mono_r; lia). simpl in *. lia. }
  assert (k - 1 < d).
  { apply (Z.pow_lt_mono_r_iff 2); lia. }
  assert (d - 1 < k).
  { apply (Z.pow_lt_mono_r_iff 2); lia. }
  lia.
Qed.

Lemma iter_xO p k : Zpos (Pos.iter xO p k) = Zpos p * 2 ^ Zpos k.
Proof.
  induction k using Pos.peano_ind.
  - simpl. lia.
  - rewrite Pos.iter_succ, Pos2Z.inj_succ, Z.pow_succ_r by lia.
    rewrite Pos2Z.inj_xO, IHk. ring.
Qed.

Lemma shr_1_m mrs : 0 <= shr_m mrs -> shr_m (shr_1 mrs) = shr_m mrs / 2.
Proof.
  destruct mrs as [m r s]. simpl. intros H.
  destruct m as [|[p|p|]|p]; simpl; try lia; try reflexivity.
  - rewrite Pos2Z.inj_xI. apply (Z.div_unique _ _ _ 1); lia.
  - rewrite Pos2Z.inj_xO. apply (Z.div_unique _ _ _ 0); lia.
Qed.

Lemma iter_shr_1_m k :
  forall mrs, 0 <= shr_m mrs ->
    shr_m (iter_pos shr_1 k mrs) = shr_m mrs / 2 ^ Zpos k.
Proof.
  assert (Hpow : forall q, 0 < 2 ^ Zpos q) by (intros; apply Z.pow_pos_nonneg; lia).
  assert (Hnn : forall a q, 0 <= a -> 0 <= a / 2 ^ Zpos q).
  { intros a q Ha. apply Z.div_pos; [assumption|apply Hpow]. }
  induction k as [k IH|k IH|]; intros mrs H; simpl iter_pos.
  - assert (H1 : 0 <= shr_m (shr_1 mrs)).
    { rewrite shr_1_m by assumption. apply Z.div_pos; lia. }
    assert (H2 : 0 <= shr_m (iter_pos shr_1 k (shr_1 mrs))).
    { rewrite IH by assumption. now apply Hnn. }
    rewrite (IH _ H2), (IH _ H1), shr_1_m by assumption.
    rewrite !Zdiv.Zdiv_Zdiv by (specialize (Hpow k); nia).
    f_equal. replace (Zpos k~1) with (1 + Zpos k + Zpos k) by lia.
    rewrite !Z.pow_add_r, Z.pow_1_r by lia. ring.
  - assert (H2 : 0 <= shr_m (iter_pos shr_1 k mrs)).
    { rewrite IH by assumption. now apply Hnn. }
    rewrite (IH _ H2), (IH _ H) by assumption.
    rewrite !Zdiv.Zdiv_Zdiv by (specialize (Hpow k); nia).
    f_equal. replace (Zpos k~0) with (Zpos k + Zpos k) by lia.
    rewrite Z.pow_add_r by lia. reflexivity.
  - rewrite shr_1_m by assumption. reflexivity.
Qed.

Lemma fexp_53 e : -1074 <= e -> fexp prec emax (53 + e) = e.
Proof. unfold fexp, SpecFloat.emin, prec, emax. lia. Qed.

Lemma fexp_54 e : -1074 <= e -> fexp prec emax (54 + e) = e + 1.
Proof. unfold fexp, SpecFloat.emin, prec, emax. lia. Qed.

(** A mantissa of 53 digits is canonical. *)
Lemma bounded_53 m e :
  Zpos (digits2_pos m) = 53 -> -1074 <= e <= 971 -> bounded prec emax m e = true.
Proof.
  intros Hd He. unfold bounded, canonical_mantissa.
  rewrite Hd, fexp_53, Z.eqb_refl by lia. simpl.
  apply Z.leb_le. unfold emax, prec. lia.
Qed.

(** Rounding leaves a mantissa of 53 digits alone. *)
Lemma round_aux_53 s m e :
  Zpos (digits2_pos m) = 53 -> -1074 <= e ->
  binary_round_aux prec emax s (Zpos m) e loc_Exact = finite_or_infinite s m e.
Proof.
  intros Hd He. unfold binary_round_aux, shr_fexp.
  cbn [Zdigits2 shr_record_of_loc]. rewrite Hd, fexp_53, Z.sub_diag by assumption.
  cbn [shr shr_m loc_of_shr_record round_nearest_even Zdigits2 shr_record_of_loc].
  rewrite Hd, fexp_53, Z.sub_diag by assumption.
  cbn [shr shr_m]. reflexivity.
Qed.

Lemma round_nearest_even_bounds m l :
  m <= round_nearest_even m l <= m + 1.
Proof.
  destruct l as [|[| |]]; simpl; try lia. destruct (Z.even m); lia.
Qed.

(** The second half of [binary_round_aux]: a mantissa in [2^52, 2^53] after
    rounding is renormalised to 53 digits. *)
Lemma renormalise s m2 e :
  2 ^ 52 <= m2 <= 2 ^ 53 -> -1074 <= e ->
  exists m e',
    Zpos (digits2_pos m) = 53 /\ e <= e' <= e + 1 /\
    (let '(mrs, e'') := shr_fexp prec emax m2 e loc_Exact in
     match shr_m mrs with
     | Z0 => S754_zero s
     | Zpos m => if e'' <=? emax - prec then S754_finite s m e'' else S754_infinity s
     | Zneg _ => S754_nan
     end) = finite_or_infinite s m e'.
Proof.
  intros Hm He.
  destruct m2 as [|q|q]; try (exfalso; simpl in Hm; lia).
  destruct (Z.eq_dec (Zpos q) (2 ^ 53)) as [E|E].
  - injection E as ->.
    exists (2 ^ 52)%positive, (e + 1). repeat split; try lia.
    unfold shr_fexp. cbn [Zdigits2 shr_record_of_loc].
    change (Zpos (digits2_pos (2 ^ 53))) with 54.
    rewrite fexp_54 by assumption. replace (e + 1 - e) with 1 by lia.
    reflexivity.
  - assert (Hd : Zpos (digits2_pos q) = 53) by (apply digits2_unique; simpl in *; lia).
    exists q, e. repeat split; try lia.
    unfold shr_fexp. cbn [Zdigits2 shr_record_of_loc].
    rewrite Hd, fexp_53, Z.sub_diag by assumption. reflexivity.
Qed.

(** An integer mantissa rounds to a mantissa of 53 digits, the exponent set by
    the number of its digits, or to an infinity when that is too large. *)
Lemma binary_round_int s p :
  exists m e,
    Zpos (digits2_pos m) = 53
    /\ Zpos (digits2_pos p) - 53 <= e <= Zpos (digits2_pos p) - 52
    /\ binary_round prec emax s p 0 = finite_or_infinite s m e.
Proof.
  destruct (digits2_bounds p) as [Dlo Dhi].
  set (d := Zpos (digits2_pos p)) in *.
  assert (Hd : 0 < d) by (unfold d; lia).
  unfold binary_round. fold d.
  assert (Hf : fexp prec emax (d + 0) = d - 53)
    by (unfold fexp, SpecFloat.emin, prec, emax; lia).
  rewrite Hf. unfold shl_align. rewrite Z.sub_0_r.
  destruct (d - 53) as [|k|k] eqn:Hk.
  - exists p, 0. repeat split; try lia.
    apply round_aux_53; [fold d|]; lia.
  - (* more than 53 digits: the low ones are shifted out *)
    unfold binary_round_aux.
    unfold shr_fexp at 1. cbn [Zdigits2 shr_record_of_loc]. fold d.
    rewrite Hf, Z.sub_0_r. cbn [shr].
    set (mrs := iter_pos shr_1 k _).
    assert (Hm : shr_m mrs = Zpos p / 2 ^ Zpos k)
      by (unfold mrs; rewrite iter_shr_1_m; simpl; [reflexivity|lia]).
    assert (Hp : 0 < 2 ^ Zpos k) by (apply Z.pow_pos_nonneg; lia).
    assert (Hb : 2 ^ 52 <= shr_m mrs < 2 ^ 53).
    { rewrite Hm. replace d with (Zpos k + 53) in * by lia.
      replace (Zpos k + 53 - 1) with (Zpos k + 52) in Dlo by lia.
      rewrite Z.pow_add_r in Dlo, Dhi by lia. split.
      - apply Z.div_le_lower_bound; lia.
      - apply Z.div_lt_upper_bound; lia. }
    assert (Hr := round_nearest_even_bounds (shr_m mrs) (loc_of_shr_record mrs)).
    destruct (renormalise s (round_nearest_even (shr_m mrs) (loc_of_shr_record mrs))
                (Zpos k)) as (m & e' & Hm53 & He' & Heq); [lia|lia|].
    exists m, e'. repeat split; try lia.
    rewrite Z.add_0_l. exact Heq.
  - (* fewer than 53 digits: zeros are appended *)
    exists (Pos.iter xO p k), (Zneg k).
    assert (Hz := iter_xO p k).
    assert (Hp : 0 < 2 ^ Zpos k) by (apply Z.pow_pos_nonneg; lia).
    assert (Hd53 : Zpos (digits2_pos (Pos.iter xO p k)) = 53).
    { apply digits2_unique. rewrite Hz.
      replace (53 - 1) with (d - 1 + Zpos k) by lia.
      replace 53 with (d + Zpos k) by lia.
      rewrite !Z.pow_add_r by lia. split; nia. }
    repeat split; try lia. apply round_aux_53; [assumption|lia].
Qed.

(** An integer that is not zero does not round to zero. *)
Lemma float_of_Z_nonzero z f :
  z <> 0 -> float_of_Z z = Ok f -> is_zero f = false.
Proof.
  intros Hz. unfold float_of_Z, binary_normalize.
  assert (H : forall s p,
             match binary_round prec emax s p 0 with
             | S754_infinity _ =>
                 Raise (OverflowError "int too large to convert to float")
             | sf => Ok (SF2Prim sf)
             end = Ok f -> is_zero f = false).
  { intros s p. destruct (binary_round_int s p) as (m & e & Hd & He & ->).
    destruct (digits2_bounds p) as [Dlo Dhi].
    unfold finite_or_infinite. destruct (Z.leb_spec e 971); [|discriminate].
    intros [= <-]. unfold is_zero. rewrite FloatAxioms.eqb_spec.
    change (SFeqb (Prim2SF (SF2Prim (S754_finite s m e))) (Prim2SF zero) = false).
    rewrite Prim2SF_SF2Prim by (apply bounded_53; lia).
    now destruct s. }
  destruct z as [|p|p]; [contradiction| |]; apply H.
Qed.

(** An integer below [2^1023] in absolute value has a float. *)
Lemma float_of_Z_small z :
  Z.abs z < 2 ^ 1023 -> exists f, float_of_Z z = Ok f.
Proof.
  intros Hz. unfold float_of_Z, binary_normalize.
  assert (H : forall s p, Zpos p < 2 ^ 1023 ->
             exists f,
               match binary_round prec emax s p 0 with
               | S754_infinity _ =>
                   Raise (OverflowError "int too large to convert to float")
               | sf => Ok (SF2Prim sf)
               end = Ok f).
  { intros s p Hp. destruct (binary_round_int s p) as (m & e & Hd & He & ->).
    destruct (digits2_bounds p) as [Dlo Dhi].
    assert (Zpos (digits2_pos p) - 1 < 1023).
    { apply (Z.pow_lt_mono_r_iff 2); lia. }
    unfold finite_or_infinite. destruct (Z.leb_spec e 971); [|lia].
    now eexists. }
  destruct z as [|p|p]; [now eexists| |]; apply H; lia.
Qed.

(** *** Floats that are not special *)

(** A float that is neither NaN nor infinite is a zero or a finite number. *)
Lemma finite_cases a :
  is_nan a = false -> is_infinity a = false ->
  (exists s, Prim2SF a = S754_zero s)
  \/ (exists s m e, Prim2SF a = S754_finite s m e /\ bounded prec emax m e = true).
Proof.
  unfold is_nan, is_infinity. rewrite !FloatAxioms.eqb_spec, abs_spec.
  assert (Hv := Prim2SF_valid a).
  destruct (Prim2SF a) as [s|s| |s m e]; simpl in *.
  - intros _ _. left. now exists s.
  - intros _ H. destruct s; discriminate.
  - discriminate.
  - intros _ _. right. now exists s, m, e.
Qed.

Lemma Prim2SF_one : Prim2SF 1 = S754_finite false 4503599627370496 (-52).
Proof. now vm_compute. Qed.

Lemma Prim2SF_zero : Prim2SF 0 = S754_zero false.
Proof. now vm_compute. Qed.

(** Multiplying a mantissa by [2^52] appends 52 zeros, which the rounding
    shifts out again. *)
Lemma times_one s m e :
  bounded prec emax m e = true ->
  SFmul prec emax (S754_finite false 4503599627370496 (-52)) (S754_finite s m e)
  = S754_finite s m e.
Proof.
  unfold bounded, canonical_mantissa. intros H.
  apply andb_prop in H as [Hc He]. apply Z.eqb_eq in Hc. apply Z.leb_le in He.
  unfold SFmul. cbn [xorb].
  unfold binary_round_aux, shr_fexp.
  assert (Hd : Zdigits2 (Zpos (4503599627370496 * m)) = Zpos (digits2_pos m) + 52).
  { cbn [Zdigits2]. cbn [Pos.mul digits2_pos]. rewrite !Pos2Z.inj_succ. lia. }
  rewrite Hd.
  replace (Zpos (digits2_pos m) + 52 + (-52 + e)) with (Zpos (digits2_pos m) + e) by lia.
  rewrite Hc. replace (e - (-52 + e)) with 52 by lia.
  cbn [shr_record_of_loc shr]. 
  replace (iter_pos shr_1 52 {| shr_m := Zpos (4503599627370496 * m); shr_r := false; shr_s := false |})
    with {| shr_m := Zpos m; shr_r := false; shr_s := false |} by reflexivity.
  cbn [shr_m loc_of_shr_record round_nearest_even Zdigits2 shr_record_of_loc].
  replace (-52 + e + 52) with e by lia.
  rewrite Hc, Z.sub_diag. cbn [shr shr_m].
  apply Z.leb_le in He. now rewrite He.
Qed.

Lemma Prim2SF_inj x y : Prim2SF x = Prim2SF y -> x = y.
Proof.
  intros H. rewrite <- (SF2Prim_Prim2SF x), <- (SF2Prim_Prim2SF y). now f_equal.
Qed.

Lemma shr_m_of_loc m l : shr_m (shr_record_of_loc m l) = m.
Proof. now destruct l as [|[| |]]. Qed.

(** Shifting a mantissa that is not negative leaves it so. *)
Lemma shr_fexp_nonneg m e l :
  0 <= m -> 0 <= shr_m (fst (shr_fexp prec emax m e l)).
Proof.
  intros Hm. unfold shr_fexp, shr.
  destruct (fexp prec emax (Zdigits2 m + e) - e) as [|k|k]; cbn [fst];
    rewrite ?iter_shr_1_m, shr_m_of_loc by (rewrite shr_m_of_loc; lia);
    try assumption.
  apply Z.div_pos; [assumption|]. apply Z.pow_pos_nonneg; lia.
Qed.

(** Rounding a positive mantissa gives a zero, a finite number or an
    infinity, of the given sign. *)
Lemma binary_round_aux_cases s m e l :
  0 <= m ->
  binary_round_aux prec emax s m e l = S754_zero s
  \/ (exists m' e', binary_round_aux prec emax s m e l = S754_finite s m' e')
  \/ binary_round_aux prec emax s m e l = S754_infinity s.
Proof.
  intros Hm. unfold binary_round_aux.
  assert (H1 := shr_fexp_nonneg m e l Hm).
  destruct (shr_fexp prec emax m e l) as [mrs e']. cbn [fst] in H1.
  assert (H2 := round_nearest_even_bounds (shr_m mrs) (loc_of_shr_record mrs)).
  assert (H3 := shr_fexp_nonneg
                  (round_nearest_even (shr_m mrs) (loc_of_shr_record mrs)) e' loc_Exact).
  destruct (shr_fexp prec emax _ e' loc_Exact) as [mrs' e'']. cbn [fst] in H3.
  destruct (shr_m mrs') as [|p|p].
  - now left.
  - destruct (e'' <=? emax - prec); [right; left; now eexists _, _|now right; right].
  - exfalso. lia.
Qed.

Lemma is_infinity_spec a s : Prim2SF a = S754_infinity s -> is_infinity a = true.
Proof.
  intros H. unfold is_infinity. rewrite FloatAxioms.eqb_spec, abs_spec, H. reflexivity.
Qed.

Lemma SFeqb_refl_finite s m e : SFeqb (S754_finite s m e) (S754_finite s m e) = true.
Proof.
  unfold SFeqb, SFcompare. rewrite Z.compare_refl, Pos.compare_cont_refl.
  now destruct s.
Qed.

Lemma not_special a :
  (exists s, Prim2SF a = S754_zero s) \/ (exists s m e, Prim2SF a = S754_finite s m e) ->
  is_nan a = false /\ is_infinity a = false.
Proof.
  unfold is_nan, is_infinity. rewrite !FloatAxioms.eqb_spec, abs_spec.
  intros [[s ->]|(s & m & e & ->)]; cbn [SFabs].
  - now split.
  - rewrite SFeqb_refl_finite. now split.
Qed.

Section Finite.

Variable a : float.
Hypothesis Hnan : is_nan a = false.
Hypothesis Hinf : is_infinity a = false.
Hypothesis Hsq : is_infinity (a * a) = false.

(** The square is [+0] or a finite positive number. *)
Lemma square_cases :
  Prim2SF (a * a) = S754_zero false
  \/ exists m e, Prim2SF (a * a) = S754_finite false m e
                 /\ bounded prec emax m e = true.
Proof.
  assert (Hv := Prim2SF_valid (a * a)).
  assert (Hi := is_infinity_spec (a * a)). revert Hv Hi.
  rewrite mul_spec. unfold SF64mul, SFmul.
  destruct (finite_cases a Hnan Hinf) as [[s ->]|(s & m & e & -> & _)].
  - rewrite xorb_nilpotent. now left.
  - rewrite xorb_nilpotent.
    destruct (binary_round_aux_cases false (Zpos (m * m)) (e + e) loc_Exact)
      as [->|[(m' & e' & ->)| ->]]; [lia| | |].
    + now left.
    + intros Hv _. right. now exists m', e'.
    + intros _ Hi. specialize (Hi false eq_refl). congruence.
Qed.

Lemma plus_zero_square : (0 + a * a = a * a)%float.
Proof.
  apply Prim2SF_inj. rewrite add_spec, Prim2SF_zero.
  destruct square_cases as [->|(m & e & -> & _)]; reflexivity.
Qed.

Lemma one_times_square : (1 * (a * a) = a * a)%float.
Proof.
  apply Prim2SF_inj. rewrite mul_spec, Prim2SF_one.
  destruct square_cases as [->|(m & e & -> & Hb)]; [reflexivity|].
  now apply times_one.
Qed.

Lemma square_of_sum : ((0 + a) * (0 + a) = a * a)%float.
Proof.
  apply Prim2SF_inj. rewrite !mul_spec, add_spec, Prim2SF_zero.
  destruct (finite_cases a Hnan Hinf) as [[s ->]|(s & m & e & -> & _)].
  - now destruct s.
  - reflexivity.
Qed.

Lemma sum_not_special : is_nan (0 + a) = false /\ is_infinity (0 + a) = false.
Proof.
  apply not_special. rewrite add_spec, Prim2SF_zero.
  destruct (finite_cases a Hnan Hinf) as [[s ->]|(s & m & e & -> & _)].
  - left. destruct s; now eexists.
  - right. now eexists _, _, _.
Qed.

Lemma square_minus_square : (a * a - a * a = 0)%float.
Proof.
  apply Prim2SF_inj. rewrite sub_spec, Prim2SF_zero.
  destruct square_cases as [->|(m & e & -> & _)]; [reflexivity|].
  unfold SF64sub, SFsub. rewrite Z.sub_diag. reflexivity.
Qed.

End Finite.

End FloatFacts.

(* ================================================================= *)
(** ** Which exceptions the arithmetic can raise *)

Module ArithFacts.

Import Py.
Local Open Scope string_scope.

Lemma float_of_Z_raises z e : float_of_Z z = Raise e -> is_overflow e = true.
Proof.
  unfold float_of_Z.
  destruct (binary_normalize prec emax z 0 false); intros [= <-]; reflexivity.
Qed.

Lemma as_float_raises a e : as_float a = Raise e -> is_overflow e = true.
Proof.
  destruct a as [z|f]; [apply float_of_Z_raises|discriminate].
Qed.

(** A mixed operation only raises what the conversion of an operand raises. *)
Lemma mixed_raises (op : float -> float -> float) a b e :
  (fa <- as_float a ;; fb <- as_float b ;; Ok (Flt (op fa fb))) = Raise e ->
  is_overflow e = true.
Proof.
  destruct (as_float a) as [fa|ea] eqn:Ha; cbn [bind].
  - destruct (as_float b) as [fb|eb] eqn:Hb; cbn [bind]; [discriminate|].
    intros [= <-]. exact (as_float_raises _ _ Hb).
  - intros [= <-]. exact (as_float_raises _ _ Ha).
Qed.

Lemma add_raises a b e : add a b = Raise e -> is_overflow e = true.
Proof.
  destruct a, b; try discriminate; apply (mixed_raises PrimFloat.add).
Qed.

Lemma sub_raises a b e : sub a b = Raise e -> is_overflow e = true.
Proof.
  destruct a, b; try discriminate; apply (mixed_raises PrimFloat.sub).
Qed.

Lemma mul_raises a b e : mul a b = Raise e -> is_overflow e = true.
Proof.
  destruct a, b; try discriminate; apply (mixed_raises PrimFloat.mul).
Qed.

Lemma pow2_raises a e : pow2 a = Raise e -> is_overflow e = true.
Proof.
  destruct a as [z|f]; [discriminate|]. unfold pow2.
  destruct (is_nan f); [discriminate|].
  destruct (is_infinity f); [discriminate|].
  destruct (is_infinity (f * f)); [|discriminate].
  intros [= <-]. reflexivity.
Qed.

Lemma math_sqrt_raises a e :
  math_sqrt a = Raise e -> is_overflow e = true \/ e = ValueError "math domain error".
Proof.
  unfold math_sqrt. destruct (as_float a) as [fa|ea] eqn:Ha; cbn [bind].
  - destruct (is_nan (sqrt fa) && negb (is_nan fa)); [|discriminate].
    intros [= <-]. now right.
  - intros [= <-]. left. exact (as_float_raises _ _ Ha).
Qed.

(** True division raises an overflow or a division by zero. *)
Lemma truediv_raises a b e :
  truediv a b = Raise e ->
  is_overflow e = true \/ exists m, e = ZeroDivisionError m.
Proof.
  destruct a as [x|fa], b as [y|fb]; unfold truediv.
  - destruct (y =? 0)%Z; [intros [= <-]; right; now eexists|].
    destruct (SFdiv prec emax (Z2SF x) (Z2SF y)); intros [= <-]; now left.
  - destruct (as_float (Int x)) as [f|ex] eqn:Hx; cbn [bind as_float].
    + destruct (is_zero fb); [|discriminate]. intros [= <-]. right. now eexists.
    + intros [= <-]. left. exact (as_float_raises _ _ Hx).
  - cbn [bind as_float].
    destruct (float_of_Z y) as [f|ey] eqn:Hy; cbn [bind].
    + destruct (is_zero f); [|discriminate]. intros [= <-]. right. now eexists.
    + intros [= <-]. left. exact (float_of_Z_raises _ _ Hy).
  - cbn [bind as_float].
    destruct (is_zero fb); [|discriminate]. intros [= <-]. right. now eexists.
Qed.

(** A sum only raises what its terms and its additions raise. *)
Lemma sum_from_raises {A : Type} (f : A -> result num) (l : list A) :
  (forall a e, f a = Raise e -> is_overflow e = true) ->
  forall acc e, sum_from f l acc = Raise e -> is_overflow e = true.
Proof.
  intros Hf. induction l as [|a l IH]; intros acc e; [discriminate|].
  simpl. destruct (f a) as [v|e'] eqn:Ea; cbn [bind].
  - destruct (add acc v) as [acc'|e'] eqn:Eadd; cbn [bind]; [apply IH|].
    intros [= <-]. exact (add_raises _ _ _ Eadd).
  - intros [= <-]. exact (Hf _ _ Ea).
Qed.

Lemma sum_of_raises l e : Spec.sum_of l = Raise e -> is_overflow e = true.
Proof. apply sum_from_raises. discriminate. Qed.

Lemma sum_of_squares_raises l e :
  Spec.sum_of_squares l = Raise e -> is_overflow e = true.
Proof. apply sum_from_raises. intros a e'. apply pow2_raises. Qed.

Lemma sum_of_products_raises x y e :
  Spec.sum_of_products x y = Raise e -> is_overflow e = true.
Proof. apply sum_from_raises. intros a e'. apply mul_raises. Qed.

Lemma numerator_of_raises n Sx Sy Sxy e :
  Spec.numerator_of n Sx Sy Sxy = Raise e -> is_overflow e = true.
Proof.
  unfold Spec.numerator_of. intros H.
  destruct (mul n Sxy) eqn:E1; cbn [bind] in H;
    [|injection H as <-; exact (mul_raises _ _ _ E1)].
  destruct (mul Sx Sy) eqn:E2; cbn [bind] in H;
    [|injection H as <-; exact (mul_raises _ _ _ E2)].
  exact (sub_raises _ _ _ H).
Qed.

(** The root of the product of the two variance terms raises an overflow or
    the domain error. *)
Lemma root_of_raises n Sx Sy Sxx Syy e :
  Spec.root_of n Sx Sy Sxx Syy = Raise e ->
  is_overflow e = true \/ e = ValueError "math domain error".
Proof.
  unfold Spec.root_of, Spec.variance_term. intros H.
  repeat (rewrite ?MonadFacts.bind_assoc in H;
          match type of H with
          | bind ?r _ = Raise _ =>
              let E := fresh "E" in
              destruct r eqn:E; cbn [bind] in H;
              [|injection H as <-; left;
                first [exact (mul_raises _ _ _ E) | exact (pow2_raises _ _ E)
                      | exact (sub_raises _ _ _ E)]]
          end).
  exact (math_sqrt_raises _ _ H).
Qed.

End ArithFacts.

(* ================================================================= *)
(** ** Sums over lists and sums over indices *)

Module SumFacts.

Import Py LinearStats Spec.

Lemma sum_from_map {A B : Type} (h : A -> B) (f : B -> result num) (l : list A) :
  forall acc, sum_from f (map h l) acc = sum_from (fun a => f (h a)) l acc.
Proof.
  induction l as [|a l IH]; intros acc; [reflexivity|].
  simpl. destruct (f (h a)) as [v|e]; [|reflexivity].
  simpl. destruct (add acc v) as [acc'|e]; [|reflexivity].
  simpl. apply IH.
Qed.

(** A list is the list of its items. *)
Lemma items_of {A : Type} (d : A) (l : list A) :
  map (fun i => nth i l d) (seq 0 (List.length l)) = l.
Proof.
  induction l as [|a l IH]; [reflexivity|].
  simpl. f_equal. rewrite <- seq_shift, map_map. exact IH.
Qed.

(** [zip(x, y)] pairs the items at the positions both lists have. *)
Lemma zip_items {A : Type} (d : A) (x : list A) :
  forall y,
    combine x y
    = map (fun i => (nth i x d, nth i y d))
        (seq 0 (Nat.min (List.length x) (List.length y))).
Proof.
  induction x as [|a x IH]; intros [|b y]; try reflexivity.
  simpl. f_equal. rewrite <- seq_shift, map_map. apply IH.
Qed.

Lemma sum_items (l : list num) : sum l = sum_of l.
Proof.
  unfold sum, sum_of, sigma, sum_gen.
  rewrite <- (items_of (Int 0) l) at 1. now rewrite sum_from_map.
Qed.

Lemma sum_squares_items (l : list num) : sum_gen pow2 l = sum_of_squares l.
Proof.
  unfold sum_of_squares, sigma, sum_gen.
  rewrite <- (items_of (Int 0) l) at 1. now rewrite sum_from_map.
Qed.

Lemma sum_products_items (x y : list num) :
  sum_gen (fun '(x_i, y_i) => mul x_i y_i) (combine x y) = sum_of_products x y.
Proof.
  unfold sum_of_products, common, sigma, sum_gen.
  now rewrite (zip_items (Int 0) x y), sum_from_map.
Qed.

(** Two computations that run the same steps in the same order, one of them
    with its steps grouped: they agree step by step. *)
Ltac same_steps :=
  repeat (rewrite ?MonadFacts.bind_assoc;
          match goal with
          | |- bind ?r _ = bind ?r _ =>
              destruct r; cbn [bind]; [|reflexivity]
          | |- (if ?c then _ else _) = (if ?c then _ else _) =>
              destruct c; [reflexivity|]
          end);
  try reflexivity.

(** The code of [linear_regression], with the sums named as above. *)
Lemma linear_regression_sums (x y : list num) :
  linear_regression x y = regression_as_computed x y.
Proof.
  unfold linear_regression, regression_as_computed.
  rewrite sum_items, sum_items, sum_products_items, sum_squares_items.
  unfold regression_of, variance_term, slope_of, numerator_of, intercept_of.
  same_steps.
Qed.

(** The code of [pearson_correlation], with the sums named as above. *)
Lemma pearson_correlation_sums (x y : list num) :
  pearson_correlation x y = correlation_as_computed x y.
Proof.
  unfold pearson_correlation, correlation_as_computed.
  rewrite sum_items, sum_items, sum_products_items, !sum_squares_items.
  unfold correlation_of, root_of, variance_term, numerator_of.
  same_steps.
Qed.

End SumFacts.

(* ================================================================= *)
(** ** Sums of integers and sums of floats *)

Module IntFacts.

Import Py LinearStats Spec.
Local Open Scope Z_scope.

Lemma int_sum_app l l' : int_sum (l ++ l') = int_sum l + int_sum l'.
Proof. induction l as [|a l IH]; simpl; lia. Qed.

(** A sum whose terms are all integers is their integer sum. *)
Lemma sum_from_ints {A : Type} (f : A -> result num) (g : A -> Z) (l : list A) :
  (forall a, In a l -> f a = Ok (Int (g a))) ->
  forall acc, sum_from f l (Int acc) = Ok (Int (acc + int_sum (map g l))).
Proof.
  induction l as [|a l IH]; intros H acc.
  - simpl. now rewrite Z.add_0_r.
  - simpl. rewrite (H a) by now left. cbn [bind add].
    rewrite IH by (intros b Hb; apply H; now right).
    f_equal. f_equal. lia.
Qed.

Lemma range_indices n : range n = map Int (indices n).
Proof. unfold range, indices. now rewrite map_map. Qed.

Lemma sum_range n : sum (range n) = Ok (Int (int_sum (indices n))).
Proof.
  unfold sum, sum_gen. rewrite range_indices, SumFacts.sum_from_map.
  rewrite (sum_from_ints _ (fun z => z)) by reflexivity.
  now rewrite map_id.
Qed.

Lemma sum_squares_range n :
  sum_gen pow2 (range n) = Ok (Int (int_sum (map (fun z => z * z) (indices n)))).
Proof.
  unfold sum_gen. rewrite range_indices, SumFacts.sum_from_map.
  now rewrite (sum_from_ints _ (fun z => z * z)) by reflexivity.
Qed.

Lemma indices_succ n : indices (S n) = (indices n ++ [Z.of_nat n])%list.
Proof. unfold indices. now rewrite seq_S, map_app. Qed.

(** [0 + 1 + ... + (n-1)] and [0^2 + 1^2 + ... + (n-1)^2] *)
Lemma sum_indices n :
  2 * int_sum (indices n) = Z.of_nat n * (Z.of_nat n - 1).
Proof.
  induction n as [|n IH]; [reflexivity|].
  rewrite indices_succ, int_sum_app. simpl int_sum. lia.
Qed.

Lemma sum_square_indices n :
  6 * int_sum (map (fun z => z * z) (indices n))
  = (Z.of_nat n - 1) * Z.of_nat n * (2 * Z.of_nat n - 1).
Proof.
  induction n as [|n IH]; [reflexivity|].
  rewrite indices_succ, map_app, int_sum_app. simpl int_sum. nia.
Qed.

Lemma index_denominator_value n :
  12 * index_denominator n
  = Z.of_nat n * Z.of_nat n * (Z.of_nat n * Z.of_nat n - 1).
Proof.
  unfold index_denominator.
  assert (H1 := sum_indices n). assert (H2 := sum_square_indices n). nia.
Qed.

Lemma index_denominator_pos n : (2 <= n)%nat -> 0 < index_denominator n.
Proof.
  intros Hn. assert (H := index_denominator_value n). nia.
Qed.

Lemma sum_ints zs : sum (map Int zs) = Ok (Int (int_sum zs)).
Proof.
  unfold sum, sum_gen. rewrite SumFacts.sum_from_map.
  rewrite (sum_from_ints _ (fun z => z)) by reflexivity. now rewrite map_id.
Qed.

Lemma sum_squares_ints zs :
  sum_gen pow2 (map Int zs) = Ok (Int (int_sum (map (fun z => z * z) zs))).
Proof.
  unfold sum_gen. rewrite SumFacts.sum_from_map.
  now rewrite (sum_from_ints _ (fun z => z * z)) by reflexivity.
Qed.

Lemma zip_ints xs : forall ys,
  combine (map Int xs) (map Int ys)
  = map (fun p => (Int (fst p), Int (snd p))) (combine xs ys).
Proof.
  induction xs as [|a xs IH]; intros [|b ys]; try reflexivity.
  simpl. f_equal. apply IH.
Qed.

Lemma sum_products_ints xs ys :
  sum_gen (fun '(x_i, y_i) => mul x_i y_i) (combine (map Int xs) (map Int ys))
  = Ok (Int (int_sum (map (fun p => fst p * snd p) (combine xs ys)))).
Proof.
  unfold sum_gen. rewrite zip_ints, SumFacts.sum_from_map.
  now rewrite (sum_from_ints _ (fun p => fst p * snd p)) by reflexivity.
Qed.

Lemma int_sum_constant c n : int_sum (repeat c n) = Z.of_nat n * c.
Proof. induction n as [|n IH]; [reflexivity|]. simpl repeat. simpl int_sum. lia. Qed.

Lemma int_sum_squares_constant c n :
  int_sum (map (fun z => z * z) (repeat c n)) = Z.of_nat n * (c * c).
Proof. induction n as [|n IH]; [reflexivity|]. simpl repeat. simpl map. simpl int_sum. lia. Qed.

Lemma map_repeat_Int c n : repeat (Int c) n = map Int (repeat c n).
Proof. induction n; simpl; congruence. Qed.

(** The correlation of integer sequences, in integers up to the root. *)
Lemma correlation_of_ints xs ys :
  pearson_correlation (map Int xs) (map Int ys)
  = let n := Z.of_nat (List.length xs) in
    let sx := int_sum xs in
    let sy := int_sum ys in
    let sxy := int_sum (map (fun p => fst p * snd p) (combine xs ys)) in
    let sxx := int_sum (map (fun z => z * z) xs) in
    let syy := int_sum (map (fun z => z * z) ys) in
    denominator <- math_sqrt (Int ((n * sxx - sx * sx) * (n * syy - sy * sy))) ;;
    if is_zero denominator then Raise correlation_error
    else truediv (Int (n * sxy - sx * sy)) (Flt denominator).
Proof.
  unfold pearson_correlation.
  rewrite !sum_ints, sum_products_ints, !sum_squares_ints.
  unfold len. rewrite length_map. reflexivity.
Qed.

(** Integer sequences of which one is constant have no correlation. *)
Lemma constant_ints_y xs c :
  pearson_correlation (map Int xs) (repeat (Int c) (List.length xs))
  = Raise correlation_error.
Proof.
  rewrite map_repeat_Int, correlation_of_ints. cbv zeta.
  rewrite int_sum_constant, int_sum_squares_constant.
  replace (Z.of_nat (List.length xs) * (Z.of_nat (List.length xs) * (c * c))
           - Z.of_nat (List.length xs) * c * (Z.of_nat (List.length xs) * c))
    with 0 by ring.
  rewrite Z.mul_0_r. reflexivity.
Qed.

Lemma constant_ints_x ys c :
  pearson_correlation (repeat (Int c) (List.length ys)) (map Int ys)
  = Raise correlation_error.
Proof.
  rewrite map_repeat_Int, correlation_of_ints. cbv zeta.
  rewrite int_sum_constant, int_sum_squares_constant, repeat_length.
  replace (Z.of_nat (List.length ys) * (Z.of_nat (List.length ys) * (c * c))
           - Z.of_nat (List.length ys) * c * (Z.of_nat (List.length ys) * c))
    with 0 by ring.
  rewrite Z.mul_0_l. reflexivity.
Qed.

End IntFacts.

(* ================================================================= *)
(** ** What the two functions can raise *)

Module RaiseFacts.

Import Py LinearStats Spec.
Local Open Scope string_scope.

(** Dividing by a number that is not zero does not raise [ZeroDivisionError]. *)
Lemma truediv_nonzero a d e :
  eq_zero d = false -> truediv a d = Raise e -> is_overflow e = true.
Proof.
  destruct a as [x|fa], d as [y|fb]; unfold truediv, eq_zero; intros Hd.
  - rewrite Hd. destruct (SFdiv prec emax (Z2SF x) (Z2SF y)); intros [= <-]; reflexivity.
  - cbn [as_float]. destruct (float_of_Z x) as [f|ex] eqn:Hx; cbn [bind].
    + rewrite Hd. discriminate.
    + intros [= <-]. exact (ArithFacts.float_of_Z_raises _ _ Hx).
  - cbn [as_float bind]. destruct (float_of_Z y) as [f|ey] eqn:Hy; cbn [bind].
    + rewrite (FloatFacts.float_of_Z_nonzero y f); [discriminate| |assumption].
      intros ->. discriminate.
    + intros [= <-]. exact (ArithFacts.float_of_Z_raises _ _ Hy).
  - cbn [as_float bind]. rewrite Hd. discriminate.
Qed.

Lemma variance_term_raises n S SS e :
  variance_term n S SS = Raise e -> is_overflow e = true.
Proof.
  unfold variance_term. intros H.
  destruct (mul n SS) eqn:E1; cbn [bind] in H;
    [|injection H as <-; exact (ArithFacts.mul_raises _ _ _ E1)].
  destruct (pow2 S) eqn:E2; cbn [bind] in H;
    [|injection H as <-; exact (ArithFacts.pow2_raises _ _ E2)].
  exact (ArithFacts.sub_raises _ _ _ H).
Qed.

Lemma intercept_of_raises n Sx Sy m e :
  eq_zero n = false ->
  intercept_of n Sx Sy m = Raise e -> is_overflow e = true.
Proof.
  unfold intercept_of. intros Hn H.
  destruct (mul (Flt m) Sx) eqn:E1; cbn [bind] in H;
    [|injection H as <-; exact (ArithFacts.mul_raises _ _ _ E1)].
  destruct (sub Sy a) eqn:E2; cbn [bind] in H;
    [|injection H as <-; exact (ArithFacts.sub_raises _ _ _ E2)].
  exact (truediv_nonzero _ _ _ Hn H).
Qed.

(** Over given sums and a count that is not zero, the regression raises the
    degenerate-input error or an overflow, and nothing else. *)
Lemma regression_of_raises n Sx Sy Sxy Sxx e :
  eq_zero n = false ->
  regression_of n Sx Sy Sxy Sxx = Raise e ->
  e = regression_error \/ is_overflow e = true.
Proof.
  unfold regression_of, slope_of. intros Hn H.
  destruct (variance_term n Sx Sxx) as [d|e'] eqn:Ed; cbn [bind] in H;
    [|injection H as <-; right; exact (variance_term_raises _ _ _ _ Ed)].
  destruct (eq_zero d) eqn:Hd; [injection H as <-; now left|right].
  destruct (numerator_of n Sx Sy Sxy) as [num|e'] eqn:En; cbn [bind] in H;
    [|injection H as <-; exact (ArithFacts.numerator_of_raises _ _ _ _ _ En)].
  destruct (truediv num d) as [m|e'] eqn:Em; cbn [bind] in H;
    [|injection H as <-; exact (truediv_nonzero _ _ _ Hd Em)].
  destruct (intercept_of n Sx Sy m) as [b|e'] eqn:Eb; cbn [bind] in H;
    [discriminate|].
  injection H as <-. exact (intercept_of_raises _ _ _ _ _ Hn Eb).
Qed.

(** The length of a list that is not empty is not zero. *)
Lemma len_cons {A : Type} (a : A) (l : list A) : eq_zero (len (a :: l)) = false.
Proof.
  unfold len, eq_zero. simpl List.length. rewrite Nat2Z.inj_succ.
  apply Z.eqb_neq. lia.
Qed.

(** Without x values the denominator is the integer zero. *)
Lemma regression_of_nothing Sy :
  regression_of (Int 0) (Int 0) Sy (Int 0) (Int 0) = Raise regression_error.
Proof. reflexivity. Qed.

(** [linear_regression] raises the degenerate-input error or an overflow of
    the arithmetic, and nothing else. *)
Lemma linear_regression_raises x y e :
  linear_regression x y = Raise e ->
  e = regression_error \/ is_overflow e = true.
Proof.
  rewrite SumFacts.linear_regression_sums. unfold regression_as_computed. intros H.
  destruct (sum_of x) as [sx|e'] eqn:Ex; cbn [bind] in H;
    [|injection H as <-; right; exact (ArithFacts.sum_of_raises _ _ Ex)].
  destruct (sum_of y) as [sy|e'] eqn:Ey; cbn [bind] in H;
    [|injection H as <-; right; exact (ArithFacts.sum_of_raises _ _ Ey)].
  destruct (sum_of_products x y) as [sxy|e'] eqn:Exy; cbn [bind] in H;
    [|injection H as <-; right; exact (ArithFacts.sum_of_products_raises _ _ _ Exy)].
  destruct (sum_of_squares x) as [sxx|e'] eqn:Exx; cbn [bind] in H;
    [|injection H as <-; right; exact (ArithFacts.sum_of_squares_raises _ _ Exx)].
  destruct x as [|x0 x'].
  - injection Ex as <-. injection Exy as <-. injection Exx as <-.
    change (len []) with (Int 0) in H. rewrite regression_of_nothing in H.
    injection H as <-. now left.
  - apply (regression_of_raises _ _ _ _ _ _ (len_cons x0 x') H).
Qed.

(** [pearson_correlation] raises the degenerate-input error, the domain error
    of the square root or an overflow of the arithmetic, and nothing else. *)
Lemma pearson_correlation_raises x y e :
  pearson_correlation x y = Raise e ->
  e = correlation_error \/ e = ValueError "math domain error"
  \/ is_overflow e = true.
Proof.
  rewrite SumFacts.pearson_correlation_sums. unfold correlation_as_computed. intros H.
  destruct (sum_of x) as [sx|e'] eqn:Ex; cbn [bind] in H;
    [|injection H as <-; right; right; exact (ArithFacts.sum_of_raises _ _ Ex)].
  destruct (sum_of y) as [sy|e'] eqn:Ey; cbn [bind] in H;
    [|injection H as <-; right; right; exact (ArithFacts.sum_of_raises _ _ Ey)].
  destruct (sum_of_products x y) as [sxy|e'] eqn:Exy; cbn [bind] in H;
    [|injection H as <-; right; right;
      exact (ArithFacts.sum_of_products_raises _ _ _ Exy)].
  destruct (sum_of_squares x) as [sxx|e'] eqn:Exx; cbn [bind] in H;
    [|injection H as <-; right; right;
      exact (ArithFacts.sum_of_squares_raises _ _ Exx)].
  destruct (sum_of_squares y) as [syy|e'] eqn:Eyy; cbn [bind] in H;
    [|injection H as <-; right; right;
      exact (ArithFacts.sum_of_squares_raises _ _ Eyy)].
  unfold correlation_of in H.
  destruct (numerator_of (len x) sx sy sxy) as [num|e'] eqn:En; cbn [bind] in H;
    [|injection H as <-; right; right;
      exact (ArithFacts.numerator_of_raises _ _ _ _ _ En)].
  destruct (root_of (len x) sx sy sxx syy) as [d|e'] eqn:Ed; cbn [bind] in H.
  - destruct (is_zero d) eqn:Hd; [injection H as <-; now left|].
    right; right. apply (truediv_nonzero num (Flt d) e); assumption.
  - injection H as <-.
    destruct (ArithFacts.root_of_raises _ _ _ _ _ _ Ed) as [Ho| ->]; auto.
Qed.

End RaiseFacts.

(* ================================================================= *)
(** ** The regression over the indices *)

Module IndexFacts.

Import Py LinearStats Spec.
Local Open Scope Z_scope.

Lemma mul_int_float z v :
  Z.abs z < 2 ^ 1023 -> exists w, mul (Int z) (Flt v) = Ok (Flt w).
Proof.
  intros Hz. destruct (FloatFacts.float_of_Z_small z Hz) as [f Hf].
  unfold mul. cbn [as_float]. rewrite Hf. cbn [bind]. now eexists.
Qed.

Lemma truediv_float_int v z :
  z <> 0 -> Z.abs z < 2 ^ 1023 -> exists w, truediv (Flt v) (Int z) = Ok w.
Proof.
  intros Hnz Hz. destruct (FloatFacts.float_of_Z_small z Hz) as [f Hf].
  unfold truediv. cbn [as_float bind]. rewrite Hf. cbn [bind].
  rewrite (FloatFacts.float_of_Z_nonzero z f Hnz Hf). now eexists.
Qed.

(** A sum of floats, started from a float or from the integer 0, is a float. *)
Lemma sum_from_floats {A : Type} (f : A -> result num) (l : list A) :
  (forall a, In a l -> exists v, f a = Ok (Flt v)) ->
  l <> [] ->
  forall acc, (exists fa, as_float acc = Ok fa) ->
              exists v, sum_from f l acc = Ok (Flt v).
Proof.
  induction l as [|a l IH]; intros Hf Hl acc [fa Hacc]; [contradiction|].
  destruct (Hf a (or_introl eq_refl)) as [v Hv].
  simpl. rewrite Hv. cbn [bind].
  assert (Hadd : add acc (Flt v) = Ok (Flt (fa + v))).
  { destruct acc as [z|g]; unfold add; rewrite Hacc; reflexivity. }
  rewrite Hadd. cbn [bind].
  destruct l as [|a' l']; [now eexists|].
  apply IH; [intros b Hb; apply Hf; now right|discriminate|now eexists].
Qed.

Lemma length_range n : List.length (range n) = n.
Proof. unfold range. now rewrite length_map, length_seq. Qed.

Lemma in_range a n : In a (range n) -> exists i, a = Int i /\ 0 <= i < Z.of_nat n.
Proof.
  unfold range. rewrite in_map_iff. intros (i & <- & Hi).
  apply in_seq in Hi. exists (Z.of_nat i). split; [reflexivity|lia].
Qed.

(** The sizes of the integer sums of the indices. *)
Lemma sum_indices_bound n :
  0 <= int_sum (indices n) <= Z.of_nat n * Z.of_nat n.
Proof. assert (H := IntFacts.sum_indices n). nia. Qed.

Lemma index_denominator_bound n :
  index_denominator n <= Z.of_nat n * Z.of_nat n * (Z.of_nat n * Z.of_nat n).
Proof. assert (H := IntFacts.index_denominator_value n). nia. Qed.

(** Over the indices of at least two values the denominator is the positive
    integer [index_denominator n]. *)
Lemma denominator_of_indices n :
  regression_denominator (range n) = Ok (Int (index_denominator n)).
Proof.
  unfold regression_denominator.
  change (Sx (range n)) with (sum_of (range n)).
  change (Sxx (range n)) with (sum_of_squares (range n)).
  rewrite <- SumFacts.sum_items, <- SumFacts.sum_squares_items.
  rewrite IntFacts.sum_range, IntFacts.sum_squares_range. cbn [bind].
  unfold variance_term, count, Spec.n. rewrite length_range. reflexivity.
Qed.

(** With at least two values, and fewer than [2^255], the regression over
    their indices returns a result, whatever the values. *)
Lemma regression_over_indices (ys : list float) :
  (2 <= List.length ys)%nat ->
  Z.of_nat (List.length ys) < 2 ^ 255 ->
  exists m b,
    linear_regression (range (List.length ys)) (map Flt ys) = Ok (m, b).
Proof.
  intros Hn Hb.
  assert (Hys : map Flt ys <> []) by (destruct ys; [simpl in Hn; lia|discriminate]).
  assert (Hzip : combine (range (List.length ys)) (map Flt ys) <> [])
    by (destruct ys; [simpl in Hn; lia|discriminate]).
  set (n := List.length ys) in *. set (N := Z.of_nat n) in *.
  assert (HN : 2 <= N) by (unfold N; lia).
  assert (Hsx := sum_indices_bound n). fold N in Hsx.
  assert (Hd := index_denominator_bound n). fold N in Hd.
  assert (Hpos := IntFacts.index_denominator_pos n Hn).
  set (B := 2 ^ 255) in *.
  assert (HB : 2 ^ 1023 = 8 * (B * B * (B * B))) by reflexivity.
  assert (HNN : N * N < B * B) by nia.
  assert (H4 : N * N * (N * N) < B * B * (B * B)) by nia.
  unfold linear_regression.
  rewrite IntFacts.sum_range. cbn [bind].
  (* the sum of the values *)
  destruct (sum_from_floats Ok (map Flt ys)) with (acc := Int 0) as [sy Hsy].
  { intros a Ha. apply in_map_iff in Ha as (v & <- & _). now eexists. }
  { assumption. }
  { now eexists. }
  unfold sum at 1, sum_gen at 1. rewrite Hsy. cbn [bind].
  (* the sum of the products *)
  destruct (sum_from_floats (fun '(x_i, y_i) => mul x_i y_i)
              (combine (range n) (map Flt ys))) with (acc := Int 0) as [sxy Hsxy].
  { intros [a c] Ha. destruct (in_range a n (in_combine_l _ _ _ _ Ha)) as (i & -> & Hi).
    apply in_combine_r, in_map_iff in Ha as (v & <- & _).
    apply mul_int_float. fold N in Hi. rewrite HB. nia. }
  { assumption. }
  { now eexists. }
  unfold sum_gen at 1. rewrite Hsxy. cbn [bind].
  rewrite IntFacts.sum_squares_range. cbn [bind].
  unfold len. rewrite length_range. fold N.
  cbn [mul pow2 sub bind].
  change (N * int_sum (map (fun z => z * z) (indices n))
          - int_sum (indices n) * int_sum (indices n))
    with (index_denominator n).
  replace (eq_zero (Int (index_denominator n))) with false
    by (symmetry; apply Z.eqb_neq; lia).
  destruct (FloatFacts.float_of_Z_small N) as [fN HfN]; [rewrite HB; nia|].
  destruct (FloatFacts.float_of_Z_small (int_sum (indices n))) as [fS HfS];
    [rewrite HB; nia|].
  cbn [as_float]. rewrite HfN, HfS. cbn [bind sub as_float].
  match goal with
  | |- context [truediv (Flt ?v) (Int (index_denominator n))] =>
      destruct (truediv_float_int v (index_denominator n)) as [m ->];
      [lia|rewrite HB; nia|]
  end.
  cbn [bind sub as_float].
  match goal with
  | |- context [truediv (Flt ?v) (Int N)] =>
      destruct (truediv_float_int v N) as [b ->]; [lia|rewrite HB; nia|]
  end.
  cbn [bind]. now exists m, b.
Qed.

End IndexFacts.

(* ================================================================= *)
(** ** The guard of the regression *)

Module GuardFacts.

Import Py LinearStats Spec.
Local Open Scope string_scope.

(** A returned result has passed the guard: the denominator of the
    specification evaluates and is not zero. *)
Lemma returned_passed_guard (x y : list num) (m b : float) :
  linear_regression x y = Ok (m, b) ->
  exists d, regression_denominator x = Ok d /\ eq_zero d = false.
Proof.
  rewrite SumFacts.linear_regression_sums.
  unfold regression_as_computed, regression_denominator, regression_of.
  change (Sx x) with (sum_of x). change (Sxx x) with (sum_of_squares x).
  change (count x) with (len x).
  destruct (sum_of x) as [sx|e]; cbn [bind]; [|discriminate].
  destruct (sum_of y) as [sy|e]; cbn [bind]; [|discriminate].
  destruct (sum_of_products x y) as [sxy|e]; cbn [bind]; [|discriminate].
  destruct (sum_of_squares x) as [sxx|e]; cbn [bind]; [|discriminate].
  destruct (variance_term (len x) sx sxx) as [d|e]; cbn [bind]; [|discriminate].
  destruct (eq_zero d) eqn:Hd; [discriminate|].
  intros _. now exists d.
Qed.

(** At most one integer x value: the denominator is the integer zero. *)
Lemma denominator_of_one_integer (zs : list Z) :
  (List.length zs <= 1)%nat -> regression_denominator (map Int zs) = Ok (Int 0).
Proof.
  destruct zs as [|a [|a' zs]]; simpl List.length; intros H; [reflexivity| |lia].
  cbv [regression_denominator Sx Sxx sigma sum_gen sum_from n count variance_term
         map List.length seq item nth bind add pow2 mul sub].
  do 2 f_equal. lia.
Qed.

End GuardFacts.

(* ================================================================= *)
(** ** A single value *)

Module SingleFacts.

Import Py LinearStats Spec FloatFacts.
Local Open Scope Z_scope.

Lemma sum_of_one a : sum_of [a] = add (Int 0) a.
Proof.
  unfold sum_of, sigma, sum_gen.
  cbn [List.length seq sum_from item nth bind]. now destruct (add (Int 0) a).
Qed.

Lemma sum_of_squares_one a : sum_of_squares [a] = (v <- pow2 a ;; add (Int 0) v).
Proof.
  unfold sum_of_squares, sigma, sum_gen.
  cbn [List.length seq sum_from item nth].
  destruct (pow2 a) as [v|e]; [|reflexivity].
  cbn [bind]. now destruct (add (Int 0) v).
Qed.

(** The variance term of a single finite value is zero: the integer 0 for an
    integer, [+0.0] for a float. *)
Lemma variance_of_one a s ss d :
  not_finite a = false ->
  sum_of [a] = Ok s -> sum_of_squares [a] = Ok ss ->
  variance_term (Int 1) s ss = Ok d ->
  d = Int 0 \/ d = Flt 0.
Proof.
  rewrite sum_of_one, sum_of_squares_one.
  destruct a as [z|f]; cbn [not_finite].
  - intros _ [= <-] [= <-] [= <-]. left. f_equal. destruct (z * z)%Z; lia.
  - intros Hf. apply orb_false_elim in Hf as [Hnan Hinf].
    intros [= <-]. unfold pow2. rewrite Hnan, Hinf.
    destruct (is_infinity (f * f)) eqn:Hsq; [discriminate|].
    intros [= <-].
    change zero with 0%float.
    unfold variance_term.
    change (mul (Int 1) (Flt (0 + f * f))) with (Ok (Flt (1 * (0 + f * f)))).
    cbn [bind]. unfold pow2.
    destruct (sum_not_special f Hnan Hinf) as [-> ->].
    rewrite (square_of_sum f Hnan Hinf), Hsq. cbn [bind sub as_float].
    rewrite (plus_zero_square f Hnan Hinf Hsq), (one_times_square f Hnan Hinf Hsq),
      (square_minus_square f Hnan Hinf Hsq).
    intros [= <-]. now right.
Qed.

(** With a single x value that is finite the regression never returns: it
    raises the degenerate-input error, or an overflow. *)
Lemma regression_of_one a y :
  not_finite a = false ->
  linear_regression [a] y = Raise regression_error
  \/ exists e, linear_regression [a] y = Raise e /\ is_overflow e = true.
Proof.
  intros Ha. destruct (linear_regression [a] y) as [[m b]|e] eqn:H.
  - exfalso. destruct (GuardFacts.returned_passed_guard _ _ _ _ H) as (d & Hd & Hz).
    unfold regression_denominator in Hd.
    change (Sx [a]) with (sum_of [a]) in Hd.
    change (Sxx [a]) with (sum_of_squares [a]) in Hd.
    apply MonadFacts.bind_Ok in Hd as (s & Hs & Hd).
    apply MonadFacts.bind_Ok in Hd as (ss & Hss & Hd).
    destruct (variance_of_one a s ss d Ha Hs Hss Hd) as [-> | ->]; discriminate.
  - destruct (RaiseFacts.linear_regression_raises _ _ _ H) as [-> |Ho].
    + now left.
    + right. now exists e.
Qed.

(** With a single pair of finite values the correlation never returns: it
    raises the degenerate-input error, or an overflow. *)
Lemma correlation_of_one a c :
  not_finite a = false -> not_finite c = false ->
  pearson_correlation [a] [c] = Raise correlation_error
  \/ exists e, pearson_correlation [a] [c] = Raise e /\ is_overflow e = true.
Proof.
  intros Ha Hc.
  rewrite SumFacts.pearson_correlation_sums. unfold correlation_as_computed.
  destruct (sum_of [a]) as [sx|e] eqn:Ex; cbn [bind];
    [|right; exists e; split; [reflexivity|exact (ArithFacts.sum_of_raises _ _ Ex)]].
  destruct (sum_of [c]) as [sy|e] eqn:Ey; cbn [bind];
    [|right; exists e; split; [reflexivity|exact (ArithFacts.sum_of_raises _ _ Ey)]].
  destruct (sum_of_products [a] [c]) as [sxy|e] eqn:Exy; cbn [bind];
    [|right; exists e; split;
      [reflexivity|exact (ArithFacts.sum_of_products_raises _ _ _ Exy)]].
  destruct (sum_of_squares [a]) as [sxx|e] eqn:Exx; cbn [bind];
    [|right; exists e; split;
      [reflexivity|exact (ArithFacts.sum_of_squares_raises _ _ Exx)]].
  destruct (sum_of_squares [c]) as [syy|e] eqn:Eyy; cbn [bind];
    [|right; exists e; split;
      [reflexivity|exact (ArithFacts.sum_of_squares_raises _ _ Eyy)]].
  unfold correlation_of. change (len [a]) with (Int 1).
  destruct (numerator_of (Int 1) sx sy sxy) as [num|e] eqn:En; cbn [bind];
    [|right; exists e; split;
      [reflexivity|exact (ArithFacts.numerator_of_raises _ _ _ _ _ En)]].
  unfold root_of.
  destruct (variance_term (Int 1) sx sxx) as [vx|e] eqn:Evx; cbn [bind];
    [|right; exists e; split;
      [reflexivity|exact (RaiseFacts.variance_term_raises _ _ _ _ Evx)]].
  destruct (variance_term (Int 1) sy syy) as [vy|e] eqn:Evy; cbn [bind];
    [|right; exists e; split;
      [reflexivity|exact (RaiseFacts.variance_term_raises _ _ _ _ Evy)]].
  left.
  destruct (variance_of_one a sx sxx vx Ha Ex Exx Evx) as [-> | ->];
    destruct (variance_of_one c sy syy vy Hc Ey Eyy Evy) as [-> | ->];
    reflexivity.
Qed.

End SingleFacts.

(* ================================================================= *)
(** ** The claims of the specification *)

Import Py LinearStats Spec Examples.
Local Open Scope string_scope.

(** For sequences of the same length the sums the code computes are the
    indexed sums of the specification. *)
Lemma same_length_sums (x y : list num) :
  List.length x = List.length y ->
  sum_of x = Sx x /\ sum_of y = Sy x y /\ sum_of_products x y = Sxy x y
  /\ sum_of_squares x = Sxx x /\ sum_of_squares y = Syy x y.
Proof.
  intros H. unfold sum_of, sum_of_squares, sum_of_products, common,
    Sx, Sy, Sxy, Sxx, Syy, n.
  rewrite <- H, Nat.min_id. repeat split.
Qed.

(** C1.  For two sequences of the same length whose denominator
    [n*Sxx - Sx^2] evaluates to a value that is not zero, [linear_regression]
    returns exactly the pair the formulas give: [(m, b)] is returned if and
    only if [m] is the value of [(n*Sxy - Sx*Sy) / denominator] and [b] the
    value of [(Sy - m*Sx) / n], the sums being indexed sums added from left to
    right. *)
Theorem regression_follows_formulas (x y : list num) (d : num) :
  List.length x = List.length y ->
  regression_denominator x = Ok d ->
  eq_zero d = false ->
  forall m b : float,
    linear_regression x y = Ok (m, b)
    <-> slope x y = Ok m /\ intercept x y m = Ok b.
Proof.
  intros Hlen Hd Hnz m b.
  rewrite SumFacts.linear_regression_sums. unfold regression_as_computed.
  destruct (same_length_sums x y Hlen) as (-> & -> & -> & -> & _).
  unfold slope, intercept. rewrite Hd. revert Hd. unfold regression_denominator.
  unfold regression_of. change (len x) with (count x).
  destruct (Sx x) as [sx|e]; cbn [bind]; [|discriminate].
  destruct (Sxx x) as [sxx|e]; cbn [bind]; [|discriminate].
  intros Hv. rewrite Hv. cbn [bind]. rewrite Hnz.
  destruct (Sy x y) as [sy|e]; cbn [bind]; [|split; [discriminate|intros [? ?]; discriminate]].
  destruct (Sxy x y) as [sxy|e]; cbn [bind]; [|split; [discriminate|intros [? ?]; discriminate]].
  destruct (slope_of (count x) sx sy sxy d) as [m'|e]; cbn [bind].
  - destruct (intercept_of (count x) sx sy m') as [b'|e] eqn:Hb; cbn [bind].
    + split.
      * intros [= <- <-]. now split.
      * intros [[= <-] Hb']. rewrite Hb in Hb'. now injection Hb' as <-.
    + split; [discriminate|].
      intros [[= <-] Hb']. rewrite Hb in Hb'. discriminate.
  - split; [discriminate|intros [? ?]; discriminate].
Qed.

Lemma regression_follows_formulas_witness :
  linear_regression [Int 0; Int 1; Int 2; Int 3] [Flt 1; Flt 3.5; Flt 6; Flt 8.5]
  = Ok (2.5%float, 1%float).
Proof.
  exact (proj2 (regression_follows_formulas
                  [Int 0; Int 1; Int 2; Int 3] [Flt 1; Flt 3.5; Flt 6; Flt 8.5]
                  (Int 20) eq_refl eq_refl eq_refl 2.5%float 1%float)
               (conj eq_refl eq_refl)).
Defined.

(** C2, as stated, fails: the three observations 0.3, 0.3, 0.3 are identical,
    so [y] has zero variance, and yet the computed denominator is not zero
    and [pearson_correlation] returns a value. *)
Lemma constant_floats_have_a_correlation :
  let c := 0x1.3333333333333p-2%float in
  let x := [Int 0; Int 1; Int 2] in
  let y := [Flt c; Flt c; Flt c] in
  float_of_str "0.3" = Some c
  /\ correlation_denominator x y = Ok 0x1.3988e1409212ep-25%float
  /\ pearson_correlation x y = Ok 0%float.
Proof. now vm_compute. Qed.

(** A step that raised an overflow decides every equivalence about the
    other outcomes. *)
Ltac raised Ho :=
  let Hov := fresh "Hov" in
  pose proof Ho as Hov;
  repeat split; try discriminate;
  let H := fresh "H" in
  intros H;
  first [ injection H as -> | decompose record H ];
  solve [ congruence | cbv in Hov; congruence ].

(** The correlation of two sequences of the same length, outcome by outcome. *)
Lemma correlation_of_equal_lengths (x y : list num) :
  List.length x = List.length y ->
  (forall rho : float,
      pearson_correlation x y = Ok rho
      <-> exists d, correlation_denominator x y = Ok d /\ is_zero d = false
                    /\ r x y = Ok rho)
  /\ (pearson_correlation x y = Raise correlation_error
      <-> exists num d, numerator x y = Ok num
                        /\ correlation_denominator x y = Ok d /\ is_zero d = true)
  /\ (pearson_correlation x y = Raise (ValueError "math domain error")
      <-> exists num, numerator x y = Ok num
                      /\ correlation_denominator x y
                         = Raise (ValueError "math domain error")).
Proof.
  intros Hlen.
  rewrite SumFacts.pearson_correlation_sums. unfold correlation_as_computed.
  assert (Hsx := ArithFacts.sum_of_raises x).
  assert (Hsy := ArithFacts.sum_of_raises y).
  assert (Hsxy := ArithFacts.sum_of_products_raises x y).
  assert (Hsxx := ArithFacts.sum_of_squares_raises x).
  assert (Hsyy := ArithFacts.sum_of_squares_raises y).
  destruct (same_length_sums x y Hlen) as (Ex & Ey & Exy & Exx & Eyy).
  rewrite Ex, Ey, Exy, Exx, Eyy in *. clear Ex Ey Exy Exx Eyy.
  unfold r, numerator, correlation_denominator, correlation_of.
  change (len x) with (count x).
  destruct (Sx x) as [sx|e]; cbn [bind]; [clear Hsx|raised (Hsx e eq_refl)].
  destruct (Sy x y) as [sy|e]; cbn [bind]; [clear Hsy|raised (Hsy e eq_refl)].
  destruct (Sxy x y) as [sxy|e]; cbn [bind]; [clear Hsxy|raised (Hsxy e eq_refl)].
  destruct (Sxx x) as [sxx|e]; cbn [bind]; [clear Hsxx|raised (Hsxx e eq_refl)].
  destruct (Syy x y) as [syy|e]; cbn [bind]; [clear Hsyy|raised (Hsyy e eq_refl)].
  destruct (numerator_of (count x) sx sy sxy) as [num|e] eqn:Hnum; cbn [bind];
    [|raised (ArithFacts.numerator_of_raises _ _ _ _ _ Hnum)].
  destruct (root_of (count x) sx sy sxx syy) as [d|e] eqn:Hroot; cbn [bind].
  - assert (Hdiv : is_zero d = false ->
                   forall m, truediv num (Flt d) <> Raise (ValueError m)).
    { intros Hz m H. destruct (ArithFacts.truediv_raises _ _ _ H) as [Ho|[m' Ho]];
        discriminate. }
    destruct (is_zero d) eqn:Hz.
    + repeat split; try discriminate.
      * intros (d' & [= <-] & Hz' & _). congruence.
      * intros _. now exists num, d.
      * intros (num' & _ & H). discriminate.
    + repeat split.
      * intros H. now exists d.
      * intros (d' & [= <-] & _ & H). exact H.
      * intros H. now apply Hdiv in H.
      * intros (num' & d' & _ & [= <-] & Hz'). congruence.
      * intros H. now apply Hdiv in H.
      * intros (num' & _ & H). discriminate.
  - destruct (ArithFacts.root_of_raises _ _ _ _ _ _ Hroot) as [Ho| ->].
    + raised Ho.
    + repeat split; try discriminate.
      * intros (d' & H & _). discriminate.
      * intros (num' & d' & _ & H & _). discriminate.
      * intros _. now exists num.
Qed.

(** C2, amended.  For two sequences of the same length [pearson_correlation]
    returns [rho] exactly when the denominator
    [sqrt((n*Sxx - Sx^2) * (n*Syy - Sy^2))] evaluates to a value that is not
    zero and [rho] is the value of [numerator / denominator]; it raises the
    degenerate-input error exactly when the numerator evaluates and the
    denominator evaluates to zero; and it raises the domain error of
    [math.sqrt] exactly when the numerator evaluates and the root does not,
    the product under it being negative.  The computed denominator is zero,
    and the degenerate-input error raised, for integer sequences of which one
    is constant, and for a single pair of finite values unless the arithmetic
    overflows; for floats a constant sequence need not have a zero
    denominator. *)
Theorem correlation_follows_formulas :
  (forall x y : list num,
      List.length x = List.length y ->
      (forall rho : float,
          pearson_correlation x y = Ok rho
          <-> exists d, correlation_denominator x y = Ok d /\ is_zero d = false
                        /\ r x y = Ok rho)
      /\ (pearson_correlation x y = Raise correlation_error
          <-> exists num d, numerator x y = Ok num
                            /\ correlation_denominator x y = Ok d
                            /\ is_zero d = true)
      /\ (pearson_correlation x y = Raise (ValueError "math domain error")
          <-> exists num, numerator x y = Ok num
                          /\ correlation_denominator x y
                             = Raise (ValueError "math domain error")))
  /\ (forall (xs : list Z) (c : Z),
         pearson_correlation (map Int xs) (repeat (Int c) (List.length xs))
         = Raise correlation_error)
  /\ (forall (ys : list Z) (c : Z),
         pearson_correlation (repeat (Int c) (List.length ys)) (map Int ys)
         = Raise correlation_error)
  /\ (forall a c : num,
         not_finite a = false -> not_finite c = false ->
         pearson_correlation [a] [c] = Raise correlation_error
         \/ exists e, pearson_correlation [a] [c] = Raise e
                      /\ is_overflow e = true).
Proof.
  split; [exact correlation_of_equal_lengths|].
  split; [exact IntFacts.constant_ints_y|].
  split; [exact IntFacts.constant_ints_x|].
  exact SingleFacts.correlation_of_one.
Qed.

Lemma correlation_follows_formulas_witness :
  pearson_correlation [Int 0; Int 1; Int 2; Int 3] [Flt 1; Flt 3.5; Flt 6; Flt 8.5]
  = Ok 1%float.
Proof.
  exact (proj2 (proj1 (proj1 correlation_follows_formulas
                         [Int 0; Int 1; Int 2; Int 3]
                         [Flt 1; Flt 3.5; Flt 6; Flt 8.5] eq_refl) 1%float)
               (ex_intro _ 50%float (conj eq_refl (conj eq_refl eq_refl)))).
Defined.

(** C3.  When the parser meets a line that is not blank and is not a number,
    it raises the parse error, a [ValueError] whose message carries the
    1-based number of that line and its text, as the code has it: stripped of
    the surrounding whitespace and of the line terminator, so for a line
    without surrounding whitespace the text of the line itself.  The lines
    after it play no part, nothing of the values read before it is returned,
    and the run prints no result line. *)
Theorem parse_stops_at_first_bad_line
  (fs : file_system) (prog path : string)
  (before : list string) (bad : string) (after : list string) (vs : list float) :
  fs path = Ok (before ++ bad :: after)%list ->
  map float_of_str (texts before) = map Some vs ->
  blank bad = false ->
  float_of_str (strip bad) = None ->
  let message :=
    "Unable to parse line " ++ str_of_nat (S (List.length before))
      ++ ": '" ++ strip bad ++ "'" in
  parse_file fs path = Raise (ValueError message)
  /\ run fs [prog; path]
     = {| out := []; err := [Message ("Error reading file: " ++ message)];
          exit_code := 1 |}
  /\ (forall text, strip text = text -> bad = text ++ newline -> strip bad = text).
Proof.
  intros Hf Hbefore Hb Hn message.
  assert (Hp : parse_file fs path = Raise (ValueError message)).
  { unfold parse_file. rewrite Hf. simpl bind.
    now rewrite (ParseFacts.parse_lines_stops before 1 [] vs bad after). }
  split; [assumption|].
  split; [now rewrite (MainFacts.run_unreadable fs prog path _ Hp)|].
  intros text Ht ->. now apply ParseFacts.strip_line.
Qed.

Lemma parse_stops_at_first_bad_line_witness :
  let lines := file_of ["1"; ""; "2.5"; "  abc "; "4"; "xyz"] in
  parse_file (one_file data lines) data
  = Raise (ValueError "Unable to parse line 4: 'abc'")
  /\ run_on lines
     = {| out := [];
          err := [Message "Error reading file: Unable to parse line 4: 'abc'"];
          exit_code := 1 |}.
Proof.
  exact (let H := parse_stops_at_first_bad_line
                     (one_file data (file_of ["1"; ""; "2.5"; "  abc "; "4"; "xyz"]))
                     script data
                     (file_of ["1"; ""; "2.5"]) ("  abc " ++ newline)
                     (file_of ["4"; "xyz"])
                     [1%float; 2.5%float]
                     eq_refl eq_refl eq_refl eq_refl in
         conj (proj1 H) (proj1 (proj2 H))).
Defined.

(** C4.  Blank lines are skipped.  A file whose non-blank lines are all
    numbers yields the values of these lines, in order and one per line, so
    the k-th value is the one of the k-th non-blank line; the file without
    its blank lines yields the same sequence, and the two runs end alike. *)
Theorem blank_lines_are_skipped
  (fs fs' : file_system) (prog path path' : string)
  (lines : list string) (vs : list float) :
  fs path = Ok lines ->
  fs' path' = Ok (without_blanks lines) ->
  map float_of_str (texts lines) = map Some vs ->
  parse_file fs path = Ok vs
  /\ parse_file fs' path' = Ok vs
  /\ map float_of_str (map strip (without_blanks lines)) = map Some vs
  /\ run fs [prog; path] = run fs' [prog; path'].
Proof.
  intros Hf Hf' Hn.
  assert (H1 : parse_file fs path = Ok vs)
    by exact (MainFacts.parse_file_texts fs path lines vs Hf Hn).
  assert (H2 : parse_file fs' path' = Ok vs).
  { apply (MainFacts.parse_file_texts fs' path' (without_blanks lines) vs Hf').
    now rewrite ParseFacts.texts_without_blanks. }
  repeat split; try assumption.
  - now rewrite ParseFacts.without_blanks_texts.
  - unfold run, main. simpl. now rewrite H1, H2.
Qed.

Lemma blank_lines_are_skipped_witness :
  let lines := file_of [""; "3"; "  "; "1"; ""; ""; "4"; "1.5"; ""] in
  let vs := [3; 1; 4; 1.5]%float in
  parse_file (one_file data lines) data = Ok vs
  /\ parse_file (one_file data (without_blanks lines)) data = Ok vs
  /\ map float_of_str (map strip (without_blanks lines)) = map Some vs
  /\ run_on lines = run_on (without_blanks lines).
Proof.
  exact (blank_lines_are_skipped
           (one_file data (file_of [""; "3"; "  "; "1"; ""; ""; "4"; "1.5"; ""]))
           (one_file data
              (without_blanks (file_of [""; "3"; "  "; "1"; ""; ""; "4"; "1.5"; ""])))
           script data data
           (file_of [""; "3"; "  "; "1"; ""; ""; "4"; "1.5"; ""])
           [3; 1; 4; 1.5]%float
           eq_refl eq_refl eq_refl).
Defined.

Lemma in_box (K : Z) (N : nat) (c : Z) (n : nat) :
  (- K <= c <= K)%Z -> (2 <= n <= N)%nat -> In (c, n) (box K N).
Proof.
  intros Hc Hn. unfold box. apply in_prod.
  - apply in_map_iff. exists (Z.to_nat (c + K)). split; [lia|].
    apply in_seq. lia.
  - apply in_seq. lia.
Qed.

(** What a successful check says. *)
Lemma constant_check_true (c : Z) (n : nat) :
  constant_check c n = true ->
  exists v,
    float_of_str (str_of_int c) = Some v
    /\ linear_regression (range n) (repeat (Flt v) n) = Ok (0%float, v)
    /\ regression_line 0 v
       = "Linear Regression Line: y = 0.000000x + " ++ str_of_int c ++ ".000000"
    /\ pearson_correlation (range n) (repeat (Flt v) n) = Raise correlation_error.
Proof.
  unfold constant_check.
  destruct (float_of_str (str_of_int c)) as [v|]; [|discriminate].
  cbv zeta.
  destruct (linear_regression (range n) (repeat (Flt v) n)) as [[m b]|e] eqn:Hreg;
    [|discriminate].
  destruct (pearson_correlation (range n) (repeat (Flt v) n))
    as [rho|[msg| | | |]] eqn:Hcor;
    try discriminate.
  intros H. apply andb_prop in H as [H Hmsg]. apply andb_prop in H as [H Hline].
  apply andb_prop in H as [Hm Hb].
  apply FloatAxioms.Leibniz.eqb_spec in Hm, Hb. subst m b.
  apply String.eqb_eq in Hline, Hmsg. subst msg.
  exists v. repeat split; assumption.
Qed.

(** C5, as stated, fails: the constant 0.3 three times has a regression with
    slope 0.000000, but its correlation does not fail; the computed
    denominator is not zero, and the run prints both result lines. *)
Lemma three_tenths_thrice :
  let c := 0x1.3333333333333p-2%float in
  map float_of_str ["0.3"; "0.3"; "0.3"] = map Some [c; c; c]
  /\ statistics [c; c; c] = Ok (0%float, c, 0%float)
  /\ run_on (file_of ["0.3"; "0.3"; "0.3"])
     = {| out := ["Linear Regression Line: y = 0.000000x + 0.300000";
                  "Pearson Correlation Coefficient: 0.0000000000"];
          err := [];
          exit_code := 0 |}.
Proof. now vm_compute. Qed.

(** C5, amended.  For at least two values, whatever they are, the regression
    denominator over the indices is the positive integer [n^2 (n^2 - 1) / 12]
    and the regression returns a result.  For an integer constant [c] between
    -100 and 100 repeated [n] times, [n] from 2 to 20, the sums are exact: the
    slope is 0, printed 0.000000, the intercept is [c], and the correlation
    raises the degenerate-input error; for the lines 5, 5, 5 the run ends
    with that error. *)
Theorem constant_input :
  (forall ys : list float,
      (2 <= List.length ys)%nat ->
      (Z.of_nat (List.length ys) < 2 ^ 255)%Z ->
      regression_denominator (range (List.length ys))
      = Ok (Int (index_denominator (List.length ys)))
      /\ (0 < index_denominator (List.length ys))%Z
      /\ exists m b,
          linear_regression (range (List.length ys)) (map Flt ys) = Ok (m, b))
  /\ (forall (c : Z) (n : nat),
         (-100 <= c <= 100)%Z -> (2 <= n <= 20)%nat ->
         exists v,
           float_of_str (str_of_int c) = Some v
           /\ linear_regression (range n) (repeat (Flt v) n) = Ok (0%float, v)
           /\ regression_line 0 v
              = "Linear Regression Line: y = 0.000000x + " ++ str_of_int c
                ++ ".000000"
           /\ pearson_correlation (range n) (repeat (Flt v) n)
              = Raise correlation_error)
  /\ run_on (file_of ["5"; "5"; "5"])
     = {| out := [];
          err := [Message "Error computing statistics: Cannot compute Pearson correlation: denominator is zero"];
          exit_code := 1 |}.
Proof.
  split.
  { intros ys Hn Hb. split; [apply IndexFacts.denominator_of_indices|].
    split; [now apply IntFacts.index_denominator_pos|].
    now apply IndexFacts.regression_over_indices. }
  split; [|now vm_compute].
  intros c n Hc Hn. apply constant_check_true.
  assert (H : forallb (fun '(c, n) => constant_check c n) (box 100 20) = true)
    by (vm_compute; reflexivity).
  rewrite forallb_forall in H. exact (H (c, n) (in_box 100 20 c n Hc Hn)).
Qed.

(** C6.  A file with exactly one non-blank line, a number: the index sequence
    is [0], the regression denominator is zero and [linear_regression] raises
    the degenerate-input error; [main] reports it as a computation error on
    the error stream and the exit code is 1. *)
Theorem single_value_is_degenerate
  (fs : file_system) (prog path : string) (lines : list string)
  (text : string) (v : float) :
  fs path = Ok lines ->
  texts lines = [text] ->
  float_of_str text = Some v ->
  range 1 = [Int 0]
  /\ linear_regression (range 1) [Flt v] = Raise regression_error
  /\ run fs [prog; path]
     = {| out := [];
          err := [Message "Error computing statistics: Cannot compute linear regression: denominator is zero"];
          exit_code := 1 |}.
Proof.
  intros Hf Ht Hv.
  assert (Hr : linear_regression (range 1) [Flt v] = Raise regression_error)
    by reflexivity.
  repeat split; try assumption.
  assert (Hp : parse_file fs path = Ok [v]).
  { apply (MainFacts.parse_file_texts fs path lines [v] Hf).
    rewrite Ht. simpl. now rewrite Hv. }
  apply (MainFacts.run_degenerate fs prog path v [] _ Hp).
  unfold statistics. simpl List.length. simpl map.
  now rewrite Hr.
Qed.

Lemma single_value_is_degenerate_witness :
  linear_regression [Int 0] [Flt 7] = Raise regression_error
  /\ run_on (file_of [""; " 7"; ""])
     = {| out := [];
          err := [Message "Error computing statistics: Cannot compute linear regression: denominator is zero"];
          exit_code := 1 |}.
Proof.
  exact (proj2 (single_value_is_degenerate
                  (one_file data (file_of [""; " 7"; ""])) script data
                  (file_of [""; " 7"; ""]) "7" 7%float
                  eq_refl eq_refl eq_refl)).
Defined.

(** Every run ends in one of the two ways. *)
Lemma success_or_failure (fs : file_system) (argv : list string) :
  success (run fs argv) \/ failure (run fs argv).
Proof.
  destruct argv as [|prog [|path [|extra rest]]].
  - right. rewrite MainFacts.run_no_arguments. repeat split. now eexists.
  - right. rewrite MainFacts.run_usage by (simpl; lia). repeat split. now eexists.
  - destruct (parse_file fs path) as [[|v vs]|e] eqn:Hp.
    + right. rewrite (MainFacts.run_no_data _ _ _ Hp). repeat split. now eexists.
    + destruct (statistics (v :: vs)) as [[[m b] r]|e] eqn:Hs.
      * left. rewrite (MainFacts.run_computed _ _ _ _ _ _ _ _ Hp Hs).
        repeat split. now exists m, b, r.
      * right. destruct (is_ValueError e) eqn:He.
        -- destruct e; try discriminate.
           rewrite (MainFacts.run_degenerate _ _ _ _ _ _ Hp Hs).
           repeat split. now eexists.
        -- rewrite (MainFacts.run_uncaught _ _ _ _ _ _ Hp Hs He).
           repeat split. now eexists.
    + right. rewrite (MainFacts.run_unreadable _ _ _ _ Hp). repeat split. now eexists.
  - right. rewrite MainFacts.run_usage by (simpl; lia). repeat split. now eexists.
Qed.

(** C7.  Every run ends in one of two ways.  Either it succeeds: exactly the
    two result lines on the standard output, nothing on the error stream,
    exit code 0.  Or it fails: nothing on the standard output, one report on
    the error stream, exit code 1.  No run prints one result line only.  A
    wrong number of arguments, a file that cannot be read or parsed, a file
    without values and a degenerate denominator are failures, each with its
    message; the run succeeds when the file parses to at least one value and
    both statistics are computed. *)
Theorem all_or_nothing :
  (forall fs argv, success (run fs argv) \/ failure (run fs argv))
  /\ (forall fs prog rest,
         List.length (prog :: rest) <> 2%nat ->
         run fs (prog :: rest)
         = {| out := []; err := [Message ("Usage: " ++ prog ++ " <data_file>")];
              exit_code := 1 |})
  /\ (forall fs prog path e,
         parse_file fs path = Raise e ->
         run fs [prog; path]
         = {| out := []; err := [Message ("Error reading file: " ++ exn_str e)];
              exit_code := 1 |})
  /\ (forall fs prog path,
         parse_file fs path = Ok [] ->
         run fs [prog; path]
         = {| out := []; err := [Message "Error: No data found in file"];
              exit_code := 1 |})
  /\ (forall fs prog path v vs msg,
         parse_file fs path = Ok (v :: vs) ->
         statistics (v :: vs) = Raise (ValueError msg) ->
         run fs [prog; path]
         = {| out := [];
              err := [Message ("Error computing statistics: " ++ msg)];
              exit_code := 1 |})
  /\ (forall fs prog path v vs m b r,
         parse_file fs path = Ok (v :: vs) ->
         statistics (v :: vs) = Ok (m, b, r) ->
         run fs [prog; path]
         = {| out := [regression_line m b; correlation_line r]; err := [];
              exit_code := 0 |}).
Proof.
  split; [exact success_or_failure|].
  split; [exact MainFacts.run_usage|].
  split; [exact MainFacts.run_unreadable|].
  split; [exact MainFacts.run_no_data|].
  split; [exact MainFacts.run_degenerate|].
  exact MainFacts.run_computed.
Qed.

(** C8.  For an input whose non-blank lines are 1, 2, 3, 4, 5 the sums are
    the exact integers 15, 40, 30 and 55 (as floats where a float is involved),
    both denominators and the numerator are exactly 50, so slope, intercept
    and correlation are exactly 1, and the run prints them as 1.000000,
    1.000000 and 1.0000000000. *)
Theorem one_to_five
  (fs : file_system) (prog path : string) (lines : list string) :
  fs path = Ok lines ->
  texts lines = ["1"; "2"; "3"; "4"; "5"] ->
  let x := range 5 in
  let y := map Flt [1; 2; 3; 4; 5]%float in
  parse_file fs path = Ok [1; 2; 3; 4; 5]%float
  /\ (Sx x = Ok (Int 10) /\ Sy x y = Ok (Flt 15) /\ Sxy x y = Ok (Flt 40)
      /\ Sxx x = Ok (Int 30) /\ Syy x y = Ok (Flt 55))
  /\ (regression_denominator x = Ok (Int 50)
      /\ numerator x y = Ok (Flt 50)
      /\ correlation_denominator x y = Ok 50%float)
  /\ linear_regression x y = Ok (1%float, 1%float)
  /\ pearson_correlation x y = Ok 1%float
  /\ run fs [prog; path]
     = {| out := ["Linear Regression Line: y = 1.000000x + 1.000000";
                  "Pearson Correlation Coefficient: 1.0000000000"];
          err := [];
          exit_code := 0 |}.
Proof.
  intros Hf Ht x y.
  assert (Hp : parse_file fs path = Ok [1; 2; 3; 4; 5]%float).
  { apply (MainFacts.parse_file_texts fs path lines _ Hf). now rewrite Ht. }
  split; [assumption|].
  split; [now vm_compute|].
  split; [now vm_compute|].
  split; [now vm_compute|].
  split; [now vm_compute|].
  now rewrite (MainFacts.run_computed fs prog path _ _ 1%float 1%float 1%float Hp).
Qed.

Lemma one_to_five_witness :
  run_on (file_of ["1"; "2"; ""; "3"; " 4"; "5"])
  = {| out := ["Linear Regression Line: y = 1.000000x + 1.000000";
               "Pearson Correlation Coefficient: 1.0000000000"];
       err := [];
       exit_code := 0 |}.
Proof.
  exact (proj2 (proj2 (proj2 (proj2 (proj2
           (one_to_five (one_file data (file_of ["1"; "2"; ""; "3"; " 4"; "5"]))
              script data (file_of ["1"; "2"; ""; "3"; " 4"; "5"])
              eq_refl eq_refl)))))).
Defined.

(** C9, as stated, fails: a single x value that is not a number gives a
    denominator that is not a number either; it does not compare equal to
    zero, the guard passes with [n = 1] and a result is returned. *)
Lemma one_nan_passes_the_guard :
  List.length [Flt nan] = 1%nat
  /\ regression_denominator [Flt nan] = Ok (Flt nan)
  /\ eq_zero (Flt nan) = false
  /\ linear_regression [Flt nan] [Flt 1] = Ok (nan, nan).
Proof. now vm_compute. Qed.

(** C9, amended.  The division by [n] never divides by zero:
    [linear_regression] raises nothing but the degenerate-input error and
    overflows of the arithmetic, and it returns a result only for [n >= 1].
    Without x values the denominator is the integer zero, and on two empty
    lists the degenerate-input error is raised.  With a single x value that
    is finite, an integer or a float that is neither an infinity nor a NaN,
    no result is returned either: the denominator is zero, unless the square
    of the value overflows; so a returned result over finite x values, the
    indices among them, means [n >= 2]. *)
Theorem division_by_count_is_safe :
  (forall x y e,
      linear_regression x y = Raise e ->
      e = regression_error \/ is_overflow e = true)
  /\ (forall x y m b,
         linear_regression x y = Ok (m, b) -> (1 <= List.length x)%nat)
  /\ (forall zs,
         (List.length zs <= 1)%nat ->
         regression_denominator (map Int zs) = Ok (Int 0))
  /\ (forall a y,
         not_finite a = false ->
         linear_regression [a] y = Raise regression_error
         \/ exists e, linear_regression [a] y = Raise e /\ is_overflow e = true)
  /\ (forall x y m b,
         linear_regression x y = Ok (m, b) ->
         forallb (fun a => negb (not_finite a)) x = true ->
         (2 <= List.length x)%nat)
  /\ linear_regression [] [] = Raise regression_error.
Proof.
  assert (H1 : forall x y m b,
             linear_regression x y = Ok (m, b) -> (1 <= List.length x)%nat).
  { intros x y m b H.
    destruct (GuardFacts.returned_passed_guard x y m b H) as (d & Hd & Hz).
    destruct x; [|simpl; lia].
    injection Hd as <-. discriminate. }
  split; [exact RaiseFacts.linear_regression_raises|].
  split; [exact H1|].
  split; [exact GuardFacts.denominator_of_one_integer|].
  split; [exact SingleFacts.regression_of_one|].
  split; [|reflexivity].
  intros x y m b H Hx. assert (Hlen := H1 x y m b H).
  destruct x as [|a [|a' x]]; simpl in *; try lia.
  exfalso. rewrite andb_true_r in Hx. apply negb_true_iff in Hx.
  destruct (SingleFacts.regression_of_one a y Hx) as [E|(e & E & _)];
    rewrite E in H; discriminate.
Qed.

(** C10.  Neither function compares the lengths of [x] and [y].  Whatever the
    two lengths, each computes its formula over sums that need not fit
    together: the count, the sum of [x] and of its squares range over [x], the
    sum of [y] and of its squares over [y], the sum of products over the
    common prefix.  No exception is raised for the lengths: the only ones are
    the errors of the guards, the domain error of the square root and
    overflows of the arithmetic.  Sequences of different lengths get a value,
    even a correlation below -1. *)
Theorem lengths_are_not_compared :
  (forall x y,
      linear_regression x y = regression_as_computed x y
      /\ pearson_correlation x y = correlation_as_computed x y)
  /\ (forall x y e,
         linear_regression x y = Raise e ->
         e = regression_error \/ is_overflow e = true)
  /\ (forall x y e,
         pearson_correlation x y = Raise e ->
         e = correlation_error \/ e = ValueError "math domain error"
         \/ is_overflow e = true)
  /\ linear_regression [Int 0; Int 1; Int 2] [Flt 1; Flt 2]
     = Ok ((-0.5)%float, 1.5%float)
  /\ pearson_correlation [Int 0; Int 1; Int 2] [Flt 1; Flt 2] = Ok (-0.5)%float
  /\ pearson_correlation [Int 0; Int 1] [Flt 1; Flt 2; Flt 7]
     = Ok (-0x1.0f876ccdf6cd9p+1)%float.
Proof.
  split.
  { intros x y. split.
    - apply SumFacts.linear_regression_sums.
    - apply SumFacts.pearson_correlation_sums. }
  split; [exact RaiseFacts.linear_regression_raises|].
  split; [exact RaiseFacts.pearson_correlation_raises|].
  now vm_compute.
Qed.

(* ================================================================= *)
(** ** Further properties of the code *)

Import Inputs.

Module StripFacts.

Lemma lstrip_spaces pre s : all_space pre = true -> lstrip (pre ++ s) = lstrip s.
Proof.
  induction pre as [|c pre IH]; [reflexivity|].
  simpl. intros H. apply andb_prop in H as [Hc Hp]. rewrite Hc. now apply IH.
Qed.

Lemma rstrip_spaces post : all_space post = true -> rstrip post = "".
Proof.
  induction post as [|c post IH]; [reflexivity|].
  simpl. intros H. apply andb_prop in H as [Hc Hp]. now rewrite (IH Hp), Hc.
Qed.

Lemma rstrip_app_spaces s post : all_space post = true -> rstrip (s ++ post) = rstrip s.
Proof.
  intros H. induction s as [|c s IH].
  - simpl. now apply rstrip_spaces.
  - simpl. now rewrite IH.
Qed.

(** What is left of [s ++ t] once the whitespace in front is gone. *)
Lemma lstrip_app s t :
  lstrip (s ++ t) = if is_empty (lstrip s) then lstrip t else lstrip s ++ t.
Proof.
  induction s as [|c s IH]; [reflexivity|].
  simpl. destruct (is_space c); [exact IH|reflexivity].
Qed.

Lemma lstrip_all_space t : all_space t = true -> lstrip t = "".
Proof.
  induction t as [|c t IH]; [reflexivity|].
  simpl. intros H. apply andb_prop in H as [Hc Hp]. rewrite Hc. now apply IH.
Qed.

(** Whitespace around a line does not change what [strip] leaves of it. *)
Lemma strip_padded pre post line :
  all_space pre = true -> all_space post = true ->
  strip (padded pre post line) = strip line.
Proof.
  intros Hpre Hpost. unfold strip, padded.
  rewrite lstrip_spaces by assumption. rewrite lstrip_app.
  destruct (lstrip line) as [|c r] eqn:E; cbn [is_empty].
  - rewrite lstrip_all_space by assumption. reflexivity.
  - now apply rstrip_app_spaces.
Qed.

(** The loop sees a line through its stripped text only. *)
Lemma parse_lines_stripped lines lines' :
  Forall2 (fun l l' => strip l' = strip l) lines lines' ->
  forall line_no values,
    parse_lines line_no lines' values = parse_lines line_no lines values.
Proof.
  induction 1 as [|l l' lines lines' Hl _ IH]; intros line_no values; [reflexivity|].
  simpl. rewrite Hl.
  destruct (is_empty (strip l)); [apply IH|].
  destruct (float_of_str (strip l)); [apply IH|reflexivity].
Qed.

End StripFacts.

Module OutcomeFacts.

(** The first line that is neither blank nor a number, if there is one. *)
Lemma first_bad_line lines :
  (exists vs, map float_of_str (texts lines) = map Some vs)
  \/ (exists before bad after vs,
        lines = (before ++ bad :: after)%list
        /\ map float_of_str (texts before) = map Some vs
        /\ blank bad = false /\ float_of_str (strip bad) = None).
Proof.
  induction lines as [|line rest IH].
  - left. now exists [].
  - destruct (blank line) eqn:Hb.
    + destruct IH as [(vs & H)|(before & bad & after & vs & -> & H & Hbad & Hn)].
      * left. exists vs. now rewrite ParseFacts.texts_cons, Hb.
      * right. exists (line :: before), bad, after, vs.
        repeat split; try assumption. now rewrite ParseFacts.texts_cons, Hb.
    + destruct (float_of_str (strip line)) as [v|] eqn:Hv.
      * destruct IH as [(vs & H)|(before & bad & after & vs & -> & H & Hbad & Hn)].
        -- left. exists (v :: vs). rewrite ParseFacts.texts_cons, Hb. simpl. now rewrite Hv, H.
        -- right. exists (line :: before), bad, after, (v :: vs).
           repeat split; try assumption.
           rewrite ParseFacts.texts_cons, Hb. simpl. now rewrite Hv, H.
      * right. now exists [], line, rest, [].
Qed.


End OutcomeFacts.



(** X2.  Whitespace in front of a line and behind it, the line terminator
    included, plays no part: two files whose lines differ by such whitespace
    only are parsed to the same result, the same values or the same error with
    the same line number and text, and the two runs end alike. *)
Theorem surrounding_whitespace_is_ignored
  (fs fs' : file_system) (prog path path' : string) (lines lines' : list string) :
  fs path = Ok lines ->
  fs' path' = Ok lines' ->
  Forall2 (fun l l' => exists pre post,
               all_space pre = true /\ all_space post = true
               /\ l' = padded pre post l) lines lines' ->
  parse_file fs' path' = parse_file fs path
  /\ run fs' [prog; path'] = run fs [prog; path].
Proof.
  intros Hf Hf' H.
  assert (Hp : parse_file fs' path' = parse_file fs path).
  { unfold parse_file. rewrite Hf, Hf'. cbn [bind].
    apply StripFacts.parse_lines_stripped.
    refine (Forall2_impl _ _ H).
    intros l l' (pre & post & Hpre & Hpost & ->).
    now apply StripFacts.strip_padded. }
  split; [assumption|].
  unfold run, main. cbn [List.length Nat.eqb negb nth]. now rewrite Hp.
Qed.

Lemma surrounding_whitespace_is_ignored_witness :
  let lines := ["1"; "2.5"; "x"] in
  let lines' := ["  1" ++ newline; "2.5 "; String "009" "x   "] in
  parse_file (one_file data lines') data = parse_file (one_file data lines) data
  /\ run_on lines' = run_on lines.
Proof.
  apply (surrounding_whitespace_is_ignored
           (one_file data ["1"; "2.5"; "x"])
           (one_file data ["  1" ++ newline; "2.5 "; String "009" "x   "])
           script data data
           ["1"; "2.5"; "x"]
           ["  1" ++ newline; "2.5 "; String "009" "x   "]
           eq_refl eq_refl).
  repeat constructor.
  - exists "  ", newline. repeat split.
  - exists "", " ". repeat split.
  - exists (String "009" ""), "   ". repeat split.
Defined.

Module SpreadFacts.
Local Open Scope Z_scope.

(** The squared distances to [a]. *)
Lemma distances a l :
  int_sum (map (fun x => (x - a) * (x - a)) l)
  = int_sum (map (fun z => z * z) l) - 2 * a * int_sum l
    + Z.of_nat (List.length l) * (a * a).
Proof.
  induction l as [|x l IH]; [cbn; ring|].
  cbn [map int_sum fold_right List.length]. unfold int_sum in IH. rewrite IH.
  rewrite Nat2Z.inj_succ. ring.
Qed.

Lemma distances_nonneg a l : 0 <= int_sum (map (fun x => (x - a) * (x - a)) l).
Proof.
  induction l as [|x l IH]; [reflexivity|].
  cbn [map int_sum fold_right]. unfold int_sum in IH.
  assert (H := Z.square_nonneg (x - a)). lia.
Qed.

Lemma distances_zero a l :
  int_sum (map (fun x => (x - a) * (x - a)) l) = 0 <-> forallb (Z.eqb a) l = true.
Proof.
  induction l as [|x l IH]; [now split|].
  cbn [map int_sum fold_right forallb].
  assert (H := distances_nonneg a l). unfold int_sum in H, IH.
  rewrite andb_true_iff, Z.eqb_eq, <- IH.
  assert (Hx := Z.square_nonneg (x - a)). split.
  - intros E. split; [nia|lia].
  - intros [-> E]. rewrite E. ring.
Qed.

(** One more value adds its squared distances to the others. *)
Lemma spread_cons a l :
  spread (a :: l) = spread l + int_sum (map (fun x => (x - a) * (x - a)) l).
Proof.
  rewrite distances. unfold spread.
  cbn [map int_sum fold_right List.length]. rewrite Nat2Z.inj_succ.
  unfold int_sum. ring.
Qed.

Lemma spread_nonneg l : 0 <= spread l.
Proof.
  induction l as [|a l IH]; [reflexivity|].
  rewrite spread_cons. assert (H := distances_nonneg a l). lia.
Qed.

(** The spread is zero exactly for a constant list. *)
Lemma spread_zero l : spread l = 0 <-> all_same l = true.
Proof.
  destruct l as [|a l]; [now split|].
  rewrite spread_cons. unfold all_same. rewrite <- distances_zero.
  assert (H1 := spread_nonneg l). assert (H2 := distances_nonneg a l).
  split; [lia|]. intros E. rewrite E in *.
  apply distances_zero in E.
  (* all the values are [a], so the rest is constant as well *)
  assert (Hl : spread l = 0).
  { clear H1 H2. induction l as [|x l IH]; [reflexivity|].
    cbn [forallb] in E. apply andb_prop in E as [Ex El]. apply Z.eqb_eq in Ex. subst x.
    rewrite spread_cons, (IH El). apply distances_zero in El. lia. }
  lia.
Qed.

End SpreadFacts.

Module IntegerFacts.
Local Open Scope Z_scope.

(** The denominator of the regression over integers is their spread. *)
Lemma variance_term_ints l :
  variance_term (len (map Int l)) (Int (int_sum l))
    (Int (int_sum (map (fun z => z * z) l)))
  = Ok (Int (spread l)).
Proof. unfold variance_term, len. rewrite length_map. reflexivity. Qed.

Lemma eq_zero_spread l : eq_zero (Int (spread l)) = all_same l.
Proof.
  unfold eq_zero. destruct (all_same l) eqn:E.
  - apply Z.eqb_eq. now apply SpreadFacts.spread_zero.
  - apply Z.eqb_neq. intros H. apply SpreadFacts.spread_zero in H. congruence.
Qed.

(** Past the guard the regression raises overflows only. *)
Lemma regression_of_passed n Sx Sy Sxy Sxx d e :
  eq_zero n = false ->
  variance_term n Sx Sxx = Ok d -> eq_zero d = false ->
  regression_of n Sx Sy Sxy Sxx = Raise e -> is_overflow e = true.
Proof.
  intros Hn Hd Hz. unfold regression_of. rewrite Hd. cbn [bind]. rewrite Hz.
  unfold slope_of. intros H.
  destruct (numerator_of n Sx Sy Sxy) as [num|e'] eqn:En; cbn [bind] in H;
    [|injection H as <-; exact (ArithFacts.numerator_of_raises _ _ _ _ _ En)].
  destruct (truediv num d) as [m|e'] eqn:Em; cbn [bind] in H;
    [|injection H as <-; exact (RaiseFacts.truediv_nonzero _ _ _ Hz Em)].
  destruct (intercept_of n Sx Sy m) as [b|e'] eqn:Eb; cbn [bind] in H;
    [discriminate|].
  injection H as <-. exact (RaiseFacts.intercept_of_raises _ _ _ _ _ Hn Eb).
Qed.

(** The regression over integer x values, the sums of [x] computed. *)
Lemma regression_of_integers xs y :
  linear_regression (map Int xs) y
  = (sy <- sum_of y ;; sxy <- sum_of_products (map Int xs) y ;;
     regression_of (len (map Int xs)) (Int (int_sum xs)) sy sxy
       (Int (int_sum (map (fun z => z * z) xs)))).
Proof.
  rewrite SumFacts.linear_regression_sums. unfold regression_as_computed.
  rewrite <- (SumFacts.sum_items (map Int xs)), IntFacts.sum_ints. cbn [bind].
  destruct (sum_of y) as [sy|e]; cbn [bind]; [|reflexivity].
  destruct (sum_of_products (map Int xs) y) as [sxy|e]; cbn [bind]; [|reflexivity].
  now rewrite <- SumFacts.sum_squares_items, IntFacts.sum_squares_ints.
Qed.

Lemma constant_never_returns xs y m b :
  all_same xs = true -> linear_regression (map Int xs) y <> Ok (m, b).
Proof.
  intros Hc. rewrite regression_of_integers.
  destruct (sum_of y) as [sy|e]; cbn [bind]; [|discriminate].
  destruct (sum_of_products (map Int xs) y) as [sxy|e]; cbn [bind]; [|discriminate].
  unfold regression_of. rewrite variance_term_ints. cbn [bind].
  rewrite eq_zero_spread, Hc. discriminate.
Qed.

Lemma varying_passes_guard xs y :
  all_same xs = false -> linear_regression (map Int xs) y <> Raise regression_error.
Proof.
  intros Hc H. rewrite regression_of_integers in H.
  assert (Hx : eq_zero (len (map Int xs)) = false).
  { destruct xs; [discriminate|]. apply RaiseFacts.len_cons. }
  destruct (sum_of y) as [sy|e] eqn:Ey; cbn [bind] in H;
    [|injection H as ->; now apply ArithFacts.sum_of_raises in Ey].
  destruct (sum_of_products (map Int xs) y) as [sxy|e] eqn:Exy; cbn [bind] in H;
    [|injection H as ->; now apply ArithFacts.sum_of_products_raises in Exy].
  apply (regression_of_passed _ _ _ _ _ _ _ Hx (variance_term_ints xs)) in H;
    [discriminate|].
  now rewrite eq_zero_spread.
Qed.

Lemma constant_integers_raise xs ys :
  all_same xs = true ->
  linear_regression (map Int xs) (map Int ys) = Raise regression_error.
Proof.
  intros Hc. unfold linear_regression.
  rewrite !IntFacts.sum_ints, IntFacts.sum_products_ints, IntFacts.sum_squares_ints.
  cbn [bind]. change (mul (len (map Int xs)) (Int (int_sum (map (fun z => z * z) xs))))
    with (Ok (Int (Z.of_nat (List.length (map Int xs))
                   * int_sum (map (fun z => z * z) xs)))).
  cbn [bind pow2 sub]. rewrite length_map.
  change (Z.of_nat (List.length xs) * int_sum (map (fun z => z * z) xs)
          - int_sum xs * int_sum xs) with (spread xs).
  now rewrite eq_zero_spread, Hc.
Qed.

End IntegerFacts.

(** X4.  Over integer x values the guard of [linear_regression] is exact.
    When all the x values are the same integer, the empty list included, no
    result is returned whatever [y] is: the degenerate-input error is raised,
    unless a sum over [y] overflows first.  When two x values differ, the
    degenerate-input error is never raised.  For integer [y] the error is
    raised if and only if the x values are all the same. *)
Theorem regression_fails_exactly_on_constant_integers (xs : list Z) :
  (forall y, all_same xs = true ->
             exists e, linear_regression (map Int xs) y = Raise e
                       /\ (e = regression_error \/ is_overflow e = true))
  /\ (forall y, all_same xs = false ->
                linear_regression (map Int xs) y <> Raise regression_error)
  /\ (forall ys, linear_regression (map Int xs) (map Int ys) = Raise regression_error
                 <-> all_same xs = true).
Proof.
  split; [|split].
  - intros y Hc.
    destruct (linear_regression (map Int xs) y) as [[m b]|e] eqn:H.
    + now apply IntegerFacts.constant_never_returns in H.
    + exists e. split; [reflexivity|].
      exact (RaiseFacts.linear_regression_raises _ _ _ H).
  - intros y. apply IntegerFacts.varying_passes_guard.
  - intros ys. split.
    + intros H. destruct (all_same xs) eqn:Hc; [reflexivity|].
      now apply IntegerFacts.varying_passes_guard in H.
    + apply IntegerFacts.constant_integers_raise.
Qed.

Module RootFacts.
Import FloatFacts.
Local Open Scope Z_scope.

(** Shifting a positive mantissa whose exponent is in range does not lose it. *)
Lemma shr_fexp_positive m e l :
  0 < m -> -1074 <= e ->
  0 < shr_m (fst (shr_fexp prec emax m e l))
  /\ -1074 <= snd (shr_fexp prec emax m e l).
Proof.
  intros Hm He. destruct m as [|p|p]; try lia.
  unfold shr_fexp, shr. cbn [Zdigits2].
  destruct (digits2_bounds p) as [Dlo Dhi].
  set (d := Zpos (digits2_pos p)) in *.
  destruct (fexp prec emax (d + e) - e) as [|k|k] eqn:Hk; cbn [fst snd];
    rewrite ?shr_m_of_loc; try (split; lia).
  assert (Ek : Zpos k = d - 53).
  { revert Hk. unfold fexp, SpecFloat.emin, prec, emax. lia. }
  rewrite iter_shr_1_m by (rewrite shr_m_of_loc; lia).
  rewrite shr_m_of_loc. split; [|lia].
  assert (Hp : 0 < 2 ^ Zpos k) by (apply Z.pow_pos_nonneg; lia).
  replace (d - 1) with (Zpos k + 52) in Dlo by lia.
  rewrite Z.pow_add_r in Dlo by lia.
  assert (2 ^ 52 <= Zpos p / 2 ^ Zpos k) by (apply Z.div_le_lower_bound; lia).
  lia.
Qed.

(** Rounding a positive mantissa whose exponent is in range gives a number
    that is not zero. *)
Lemma binary_round_aux_positive s m e l :
  0 < m -> -1074 <= e ->
  (exists m' e', binary_round_aux prec emax s m e l = S754_finite s m' e')
  \/ binary_round_aux prec emax s m e l = S754_infinity s.
Proof.
  intros Hm He. unfold binary_round_aux.
  destruct (shr_fexp_positive m e l Hm He) as [H1 H1e].
  destruct (shr_fexp prec emax m e l) as [mrs e1]. cbn [fst snd] in H1, H1e.
  assert (H2 := round_nearest_even_bounds (shr_m mrs) (loc_of_shr_record mrs)).
  destruct (shr_fexp_positive
              (round_nearest_even (shr_m mrs) (loc_of_shr_record mrs)) e1 loc_Exact)
    as [H3 _]; [lia|assumption|].
  destruct (shr_fexp prec emax _ e1 loc_Exact) as [mrs' e2]. cbn [fst] in H3.
  destruct (shr_m mrs') as [|p|p]; try lia.
  destruct (e2 <=? emax - prec); [left; now eexists _, _|now right].
Qed.

(** The root of a positive number is positive. *)
Lemma SFsqrt_positive m e :
  bounded prec emax m e = true ->
  (exists m' e', SFsqrt prec emax (S754_finite false m e) = S754_finite false m' e')
  \/ SFsqrt prec emax (S754_finite false m e) = S754_infinity false.
Proof.
  unfold bounded, canonical_mantissa. intros H.
  apply andb_prop in H as [Hc _]. apply Z.eqb_eq in Hc.
  assert (He : -1074 <= e).
  { revert Hc. unfold fexp, SpecFloat.emin, prec, emax. lia. }
  unfold SFsqrt, SFsqrt_core_binary.
  set (e' := Z.min _ (Z.div2 e)).
  assert (He' : -1074 <= e' /\ 0 <= e - 2 * e').
  { unfold e'. rewrite Z.div2_div.
    assert (H2 := Z.div_mod e 2 ltac:(lia)). assert (H3 := Z.mod_pos_bound e 2 ltac:(lia)).
    unfold fexp, SpecFloat.emin, prec, emax. lia. }
  set (m1 := match e - 2 * e' with
             | 0 => Zpos m
             | Zpos _ => Z.shiftl (Zpos m) (e - 2 * e')
             | Zneg _ => 0
             end).
  assert (Hm1 : 0 < m1).
  { unfold m1. destruct (e - 2 * e') as [|k|k] eqn:Ek; try lia.
    rewrite Z.shiftl_mul_pow2 by lia.
    assert (0 < 2 ^ Zpos k) by (apply Z.pow_pos_nonneg; lia). nia. }
  assert (Hs := Z.sqrtrem_spec m1 ltac:(lia)).
  destruct (Z.sqrtrem m1) as [q r].
  apply binary_round_aux_positive; [nia|lia].
Qed.

(** The float of a positive integer is a positive finite number. *)
Lemma float_of_positive p f :
  float_of_Z (Zpos p) = Ok f ->
  exists m e, Prim2SF f = S754_finite false m e /\ bounded prec emax m e = true.
Proof.
  unfold float_of_Z, binary_normalize.
  destruct (binary_round_int false p) as (m & e & Hd & He & ->).
  destruct (digits2_bounds p) as [Dlo Dhi].
  unfold finite_or_infinite. destruct (Z.leb_spec e 971); [|discriminate].
  intros Hf.
  assert (Ef : f = SF2Prim (S754_finite false m e)) by congruence.
  assert (Hb : bounded prec emax m e = true) by (apply bounded_53; lia).
  exists m, e. split; [|assumption]. rewrite Ef. now apply Prim2SF_SF2Prim.
Qed.

(** The root of a positive integer that has a float is not zero. *)
Lemma math_sqrt_positive P f :
  0 < P -> float_of_Z P = Ok f ->
  exists d, math_sqrt (Int P) = Ok d /\ is_zero d = false.
Proof.
  intros HP Hf. unfold math_sqrt. cbn [as_float]. rewrite Hf. cbn [bind].
  destruct P as [|p|p]; try lia.
  destruct (float_of_positive p f Hf) as (m & e & Hm & Hb).
  assert (Hr : Prim2SF (sqrt f) = SFsqrt prec emax (S754_finite false m e)).
  { rewrite sqrt_spec. unfold SF64sqrt. now rewrite Hm. }
  assert (Hn : is_nan (sqrt f) = false /\ is_zero (sqrt f) = false).
  { unfold is_nan, is_zero. rewrite !FloatAxioms.eqb_spec, Hr.
    destruct (SFsqrt_positive m e Hb) as [(m' & e' & ->)| ->].
    - now rewrite SFeqb_refl_finite.
    - now split. }
  destruct Hn as [Hn Hz]. rewrite Hn. cbn [andb]. now exists (sqrt f).
Qed.

End RootFacts.

Module BoundFacts.
Local Open Scope Z_scope.

(** The size of a sum of integers that are bounded. *)
Lemma int_sum_bound B l :
  Forall (fun z => Z.abs z <= B) l ->
  Z.abs (int_sum l) <= Z.of_nat (List.length l) * B.
Proof.
  induction 1 as [|z l Hz _ IH]; [cbn; lia|].
  cbn [int_sum fold_right List.length]. unfold int_sum in IH.
  rewrite Nat2Z.inj_succ. lia.
Qed.

Lemma squares_bound B l :
  Forall (fun z => Z.abs z <= B) l ->
  Forall (fun z => Z.abs z <= B * B) (map (fun z => z * z) l).
Proof.
  intros H. apply Forall_map. refine (Forall_impl _ _ H).
  intros z Hz. cbv beta. nia.
Qed.

Lemma products_bound B xs : forall ys,
  Forall (fun z => Z.abs z <= B) xs -> Forall (fun z => Z.abs z <= B) ys ->
  Forall (fun z => Z.abs z <= B * B) (map (fun p => fst p * snd p) (combine xs ys)).
Proof.
  induction xs as [|x xs IH]; intros [|y ys] Hx Hy; try constructor.
  - inversion Hx; inversion Hy; subst. cbn [fst snd]. nia.
  - inversion Hx; inversion Hy; subst. now apply IH.
Qed.

Lemma combine_length_le {A B : Type} (xs : list A) (ys : list B) :
  (List.length (combine xs ys) <= List.length xs)%nat.
Proof. rewrite length_combine. lia. Qed.

(** The spread of [n] integers bounded by [B] is at most [n^2 B^2]. *)
Lemma spread_bound B l :
  Forall (fun z => Z.abs z <= B) l ->
  0 <= spread l
    <= Z.of_nat (List.length l) * (Z.of_nat (List.length l) * (B * B)).
Proof.
  intros H. split; [apply SpreadFacts.spread_nonneg|].
  assert (Sxx := int_sum_bound _ _ (squares_bound _ _ H)).
  rewrite length_map in Sxx. unfold spread.
  set (n := Z.of_nat (List.length l)) in *.
  assert (Hn : 0 <= n) by (unfold n; lia).
  assert (H1 : int_sum (map (fun z => z * z) l) <= n * (B * B)) by lia.
  assert (H2 : n * int_sum (map (fun z => z * z) l) <= n * (n * (B * B)))
    by (apply Z.mul_le_mono_nonneg_l; assumption).
  assert (H3 := Z.square_nonneg (int_sum l)). lia.
Qed.

(** Their covariation is at most twice that. *)
Lemma covariation_bound B xs ys :
  List.length xs = List.length ys ->
  Forall (fun z => Z.abs z <= B) xs -> Forall (fun z => Z.abs z <= B) ys ->
  Z.abs (covariation xs ys)
  <= 2 * (Z.of_nat (List.length xs) * (Z.of_nat (List.length xs) * (B * B))).
Proof.
  intros Hlen Hx Hy.
  assert (Sx := int_sum_bound _ _ Hx). assert (Sy := int_sum_bound _ _ Hy).
  assert (Sxy := int_sum_bound _ _ (products_bound _ _ _ Hx Hy)).
  assert (Hc := combine_length_le xs ys).
  rewrite length_map in Sxy. rewrite <- Hlen in Sy. unfold covariation.
  set (n := Z.of_nat (List.length xs)) in *.
  set (k := Z.of_nat (List.length (combine xs ys))) in *.
  set (sx := int_sum xs) in *. set (sy := int_sum ys) in *.
  set (sxy := int_sum (map (fun p => fst p * snd p) (combine xs ys))) in *.
  assert (Hn : 0 <= k <= n) by (unfold k, n; lia).
  assert (HB : 0 <= B * B) by apply Z.square_nonneg.
  assert (H1 : Z.abs sxy <= n * (B * B)) by nia.
  assert (H2 : Z.abs (n * sxy) <= n * (n * (B * B))).
  { rewrite Z.abs_mul, (Z.abs_eq n) by lia.
    apply Z.mul_le_mono_nonneg_l; lia. }
  assert (H3 : Z.abs (sx * sy) <= n * (n * (B * B))).
  { rewrite Z.abs_mul.
    replace (n * (n * (B * B))) with ((n * B) * (n * B)) by ring.
    apply Z.mul_le_mono_nonneg; lia. }
  lia.
Qed.

(** Fewer than [C] values. *)
Lemma count_bound n C Q :
  0 <= n < C -> 0 <= Q -> n * (n * Q) <= C * (C * Q).
Proof.
  intros Hn HQ.
  assert (n * Q <= C * Q) by (apply Z.mul_le_mono_nonneg_r; lia).
  assert (0 <= n * Q) by (apply Z.mul_nonneg_nonneg; lia).
  assert (n * (n * Q) <= C * (n * Q)) by (apply Z.mul_le_mono_nonneg_r; lia).
  assert (C * (n * Q) <= C * (C * Q)) by (apply Z.mul_le_mono_nonneg_l; lia).
  lia.
Qed.

End BoundFacts.

Module CorrelationFacts.
Local Open Scope Z_scope.

(** The correlation of integer sequences of the same length: the root of the
    product of the two spreads divides the covariation. *)
Lemma correlation_of_spreads xs ys :
  List.length xs = List.length ys ->
  pearson_correlation (map Int xs) (map Int ys)
  = (denominator <- math_sqrt (Int (spread xs * spread ys)) ;;
     if is_zero denominator then Raise correlation_error
     else truediv (Int (covariation xs ys)) (Flt denominator)).
Proof.
  intros Hlen. rewrite IntFacts.correlation_of_ints. cbv zeta.
  unfold spread, covariation. now rewrite Hlen.
Qed.

Lemma product_zero xs ys :
  spread xs * spread ys = 0 <-> all_same xs = true \/ all_same ys = true.
Proof.
  rewrite <- !SpreadFacts.spread_zero. lia.
Qed.

(** A constant sequence: the root is zero and the guard fires. *)
Lemma correlation_zero xs ys :
  List.length xs = List.length ys ->
  spread xs * spread ys = 0 ->
  pearson_correlation (map Int xs) (map Int ys) = Raise correlation_error.
Proof.
  intros Hlen E. rewrite (correlation_of_spreads xs ys Hlen). now rewrite E.
Qed.

(** No constant sequence: the root is not zero, the guard is passed, and only
    the conversions to float can fail. *)
Lemma correlation_positive xs ys :
  List.length xs = List.length ys ->
  0 < spread xs * spread ys ->
  (forall e, pearson_correlation (map Int xs) (map Int ys) = Raise e ->
             is_overflow e = true)
  /\ (forall f c, float_of_Z (spread xs * spread ys) = Ok f ->
                  float_of_Z (covariation xs ys) = Ok c ->
                  exists r, pearson_correlation (map Int xs) (map Int ys) = Ok r).
Proof.
  intros Hlen Hp. rewrite (correlation_of_spreads xs ys Hlen).
  destruct (float_of_Z (spread xs * spread ys)) as [f|e] eqn:Hf.
  - destruct (RootFacts.math_sqrt_positive _ f Hp Hf) as (d & -> & Hz).
    cbn [bind]. rewrite Hz. split.
    + intros e. apply (RaiseFacts.truediv_nonzero _ (Flt d) e). assumption.
    + intros f' c _ Hc. unfold truediv. cbn [as_float]. rewrite Hc. cbn [bind].
      rewrite Hz. now eexists.
  - unfold math_sqrt. cbn [as_float]. rewrite Hf. cbn [bind]. split.
    + intros e' [= <-]. exact (ArithFacts.float_of_Z_raises _ _ Hf).
    + discriminate.
Qed.

(** Sequences of moderate size: the integers of the computation have
    floats. *)
Lemma moderate_sizes xs ys :
  List.length xs = List.length ys ->
  Forall (fun z => Z.abs z <= 2 ^ 200) xs ->
  Forall (fun z => Z.abs z <= 2 ^ 200) ys ->
  Z.of_nat (List.length xs) < 2 ^ 50 ->
  Z.abs (spread xs * spread ys) < 2 ^ 1023
  /\ Z.abs (covariation xs ys) < 2 ^ 1023.
Proof.
  intros Hlen Hx Hy Hn.
  assert (Dx := BoundFacts.spread_bound _ _ Hx).
  assert (Dy := BoundFacts.spread_bound _ _ Hy).
  assert (Hc := BoundFacts.covariation_bound _ _ _ Hlen Hx Hy).
  rewrite <- Hlen in Dy.
  assert (HK := BoundFacts.count_bound (Z.of_nat (List.length xs)) (2 ^ 50)
                  (2 ^ 200 * 2 ^ 200) ltac:(lia) ltac:(lia)).
  set (K := 2 ^ 50 * (2 ^ 50 * (2 ^ 200 * 2 ^ 200))) in *.
  assert (HKK : K * K < 2 ^ 1023) by reflexivity.
  assert (H2K : 2 * K < 2 ^ 1023) by reflexivity.
  split; [|lia].
  rewrite Z.abs_eq by (apply Z.mul_nonneg_nonneg; lia).
  apply Z.le_lt_trans with (K * K); [|assumption].
  apply Z.mul_le_mono_nonneg; lia.
Qed.

End CorrelationFacts.

(** X5.  For integer sequences of the same length [pearson_correlation]
    raises the degenerate-input error if and only if one of the two sequences
    is constant.  The product under the root is never negative, so the domain
    error of [math.sqrt] is never raised: the only other exception is an
    overflow of a conversion to float.  When neither sequence is constant,
    the values are at most [2^200] in absolute value and there are fewer than
    [2^50] of them, a correlation is returned. *)
Theorem correlation_fails_exactly_on_constant_integers (xs ys : list Z) :
  List.length xs = List.length ys ->
  (pearson_correlation (map Int xs) (map Int ys) = Raise correlation_error
   <-> all_same xs = true \/ all_same ys = true)
  /\ (forall e, pearson_correlation (map Int xs) (map Int ys) = Raise e ->
                e = correlation_error \/ is_overflow e = true)
  /\ (all_same xs = false -> all_same ys = false ->
      Forall (fun z => (Z.abs z <= 2 ^ 200)%Z) xs ->
      Forall (fun z => (Z.abs z <= 2 ^ 200)%Z) ys ->
      (Z.of_nat (List.length xs) < 2 ^ 50)%Z ->
      exists r, pearson_correlation (map Int xs) (map Int ys) = Ok r).
Proof.
  intros Hlen.
  assert (Hz := CorrelationFacts.product_zero xs ys).
  assert (Hx := SpreadFacts.spread_nonneg xs).
  assert (Hy := SpreadFacts.spread_nonneg ys).
  destruct (Z.eq_dec (spread xs * spread ys) 0) as [E|E].
  - rewrite (CorrelationFacts.correlation_zero xs ys Hlen E).
    split; [|split].
    + split; [intros _; now apply Hz|reflexivity].
    + intros e [= <-]. now left.
    + intros Cx Cy. apply Hz in E as [E|E]; congruence.
  - assert (Hp : (0 < spread xs * spread ys)%Z) by nia.
    destruct (CorrelationFacts.correlation_positive xs ys Hlen Hp) as [Hr Hv].
    split; [|split].
    + split.
      * intros H. apply Hr in H. discriminate.
      * intros H. apply Hz in H. contradiction.
    + intros e H. right. now apply Hr.
    + intros _ _ Bx By Hn.
      destruct (CorrelationFacts.moderate_sizes xs ys Hlen Bx By Hn) as [H1 H2].
      destruct (FloatFacts.float_of_Z_small _ H1) as [f Hf].
      destruct (FloatFacts.float_of_Z_small _ H2) as [c Hc].
      exact (Hv f c Hf Hc).
Qed.

Lemma correlation_fails_exactly_on_constant_integers_witness :
  (pearson_correlation [Int 1; Int 2; Int 3] [Int 4; Int 4; Int 4]
   = Raise correlation_error
   <-> all_same [1; 2; 3]%Z = true \/ all_same [4; 4; 4]%Z = true)
  /\ exists r, pearson_correlation [Int 1; Int 2; Int 3] [Int 2; Int 4; Int 7] = Ok r.
Proof.
  split.
  - exact (proj1 (correlation_fails_exactly_on_constant_integers
                    [1; 2; 3]%Z [4; 4; 4]%Z eq_refl)).
  - apply (proj2 (proj2 (correlation_fails_exactly_on_constant_integers
                           [1; 2; 3]%Z [2; 4; 7]%Z eq_refl))); try reflexivity.
    + repeat constructor; discriminate.
    + repeat constructor; discriminate.
Defined.

Module NanFacts.
Import FloatFacts.

Lemma Prim2SF_nan : Prim2SF nan = S754_nan.
Proof. reflexivity. Qed.

Lemma add_nan_r a : (a + nan = nan)%float.
Proof.
  apply Prim2SF_inj. rewrite add_spec, Prim2SF_nan.
  now destruct (Prim2SF a) as [s|s| |s m e].
Qed.

Lemma add_nan_l a : (nan + a = nan)%float.
Proof. apply Prim2SF_inj. now rewrite add_spec, Prim2SF_nan. Qed.

Lemma sub_nan_r a : (a - nan = nan)%float.
Proof.
  apply Prim2SF_inj. rewrite sub_spec, Prim2SF_nan.
  now destruct (Prim2SF a) as [s|s| |s m e].
Qed.

Lemma sub_nan_l a : (nan - a = nan)%float.
Proof. apply Prim2SF_inj. now rewrite sub_spec, Prim2SF_nan. Qed.

Lemma mul_nan_r a : (a * nan = nan)%float.
Proof.
  apply Prim2SF_inj. rewrite mul_spec, Prim2SF_nan.
  now destruct (Prim2SF a) as [s|s| |s m e].
Qed.

Lemma mul_nan_l a : (nan * a = nan)%float.
Proof. apply Prim2SF_inj. now rewrite mul_spec, Prim2SF_nan. Qed.

Lemma div_nan_l a : (nan / a = nan)%float.
Proof. apply Prim2SF_inj. now rewrite div_spec, Prim2SF_nan. Qed.

(** A sum that has reached NaN stays there. *)
Lemma sum_from_nan {A : Type} (f : A -> result num) (l : list A) :
  (forall a, In a l -> exists v, f a = Ok (Flt v)) ->
  sum_from f l (Flt nan) = Ok (Flt nan).
Proof.
  induction l as [|a l IH]; intros Hf; [reflexivity|].
  destruct (Hf a (or_introl eq_refl)) as [v Hv].
  cbn [sum_from]. rewrite Hv. cbn [bind add as_float]. rewrite add_nan_l.
  apply IH. intros b Hb. apply Hf. now right.
Qed.

(** A sum of floats with a NaN among its terms is NaN. *)
Lemma sum_from_meets_nan {A : Type} (f : A -> result num) (l : list A) :
  (forall a, In a l -> exists v, f a = Ok (Flt v)) ->
  (exists a, In a l /\ f a = Ok (Flt nan)) ->
  forall acc, (exists fa, as_float acc = Ok fa) ->
              sum_from f l acc = Ok (Flt nan).
Proof.
  induction l as [|a l IH]; intros Hf (b & Hb & Hn) acc [fa Hacc];
    [contradiction|].
  destruct (Hf a (or_introl eq_refl)) as [v Hv].
  assert (Hadd : add acc (Flt v) = Ok (Flt (fa + v))).
  { destruct acc as [z|g]; unfold add; rewrite Hacc; reflexivity. }
  cbn [sum_from]. rewrite Hv. cbn [bind]. rewrite Hadd. cbn [bind].
  assert (Hl : forall c, In c l -> exists w, f c = Ok (Flt w))
    by (intros c Hc; apply Hf; now right).
  destruct Hb as [<-|Hb].
  - rewrite Hv in Hn. injection Hn as ->. rewrite add_nan_r.
    now apply sum_from_nan.
  - apply IH; [assumption|now exists b|now eexists].
Qed.

(** Every value has its index beside it. *)
Lemma paired {A B : Type} (l1 : list A) : forall (l2 : list B) b,
  List.length l1 = List.length l2 -> In b l2 ->
  exists a, In (a, b) (combine l1 l2).
Proof.
  induction l1 as [|a l1 IH]; intros [|b' l2] b Hlen Hb; try contradiction;
    try discriminate.
  destruct Hb as [<-|Hb].
  - exists a. now left.
  - destruct (IH l2 b) as [a' Ha']; [simpl in Hlen; lia|assumption|].
    exists a'. now right.
Qed.

Lemma pow2_float v :
  square_overflows v = false -> exists w, pow2 (Flt v) = Ok (Flt w).
Proof.
  unfold square_overflows, pow2.
  destruct (is_nan v); [now eexists|].
  destruct (is_infinity v); [now eexists|].
  destruct (is_infinity (v * v)); [discriminate|now eexists].
Qed.

End NanFacts.

Module NanRun.
Import NanFacts.
Local Open Scope Z_scope.

Section WithNan.

Variable ys : list float.
Hypothesis Hn : (2 <= List.length ys)%nat.
Hypothesis Hb : Z.of_nat (List.length ys) < 2 ^ 255.
Hypothesis Hnan : In nan ys.
Hypothesis Hsq : Forall (fun v => square_overflows v = false) ys.

Let n := List.length ys.
Let N := Z.of_nat n.

Lemma sum_with_nan : sum (map Flt ys) = Ok (Flt nan).
Proof.
  unfold sum, sum_gen. apply sum_from_meets_nan.
  - intros a Ha. apply in_map_iff in Ha as (v & <- & _). now eexists.
  - exists (Flt nan). split; [now apply in_map|reflexivity].
  - now eexists.
Qed.

Lemma products_with_nan :
  sum_gen (fun '(x_i, y_i) => mul x_i y_i) (combine (range n) (map Flt ys))
  = Ok (Flt nan).
Proof.
  assert (HB : 2 ^ 1023 = 2 ^ 768 * 2 ^ 255) by reflexivity.
  assert (Hconv : forall i, 0 <= i < N -> exists f, float_of_Z i = Ok f).
  { intros i Hi. apply FloatFacts.float_of_Z_small. fold n N in Hb. rewrite HB. lia. }
  unfold sum_gen. apply sum_from_meets_nan.
  - intros [a c] Ha.
    destruct (IndexFacts.in_range a n (in_combine_l _ _ _ _ Ha)) as (i & -> & Hi).
    apply in_combine_r, in_map_iff in Ha as (v & <- & _).
    destruct (Hconv i Hi) as [f Hf].
    unfold mul. cbn [as_float]. rewrite Hf. cbn [bind]. now eexists.
  - destruct (paired (range n) (map Flt ys) (Flt nan)) as [a Ha].
    { unfold n. now rewrite IndexFacts.length_range, length_map. }
    { now apply in_map. }
    exists (a, Flt nan). split; [assumption|].
    destruct (IndexFacts.in_range a n (in_combine_l _ _ _ _ Ha)) as (i & -> & Hi).
    destruct (Hconv i Hi) as [f Hf].
    unfold mul. cbn [as_float]. rewrite Hf. cbn [bind]. now rewrite mul_nan_r.
  - now eexists.
Qed.

Lemma squares_with_nan : sum_gen pow2 (map Flt ys) = Ok (Flt nan).
Proof.
  unfold sum_gen. apply sum_from_meets_nan.
  - intros a Ha. apply in_map_iff in Ha as (v & <- & Hv).
    rewrite Forall_forall in Hsq. now apply pow2_float, Hsq.
  - exists (Flt nan). split; [now apply in_map|reflexivity].
  - now eexists.
Qed.

(** The integers of the computation have floats. *)
Lemma index_floats :
  exists fN fS fD,
    float_of_Z N = Ok fN /\ float_of_Z (int_sum (indices n)) = Ok fS
    /\ float_of_Z (index_denominator n) = Ok fD
    /\ is_zero fN = false /\ is_zero fD = false
    /\ eq_zero (Int (index_denominator n)) = false.
Proof.
  assert (HN : 2 <= N) by (unfold N, n; lia).
  assert (Hsx := IndexFacts.sum_indices_bound n). fold N in Hsx.
  assert (Hd := IndexFacts.index_denominator_bound n). fold N in Hd.
  assert (Hpos := IntFacts.index_denominator_pos n Hn).
  fold n N in Hb.
  set (B := 2 ^ 255) in *.
  assert (HB : 2 ^ 1023 = 8 * (B * B * (B * B))) by reflexivity.
  assert (HNN : N * N < B * B) by nia.
  assert (H4 : N * N * (N * N) < B * B * (B * B)) by nia.
  destruct (FloatFacts.float_of_Z_small N) as [fN HfN]; [rewrite HB; nia|].
  destruct (FloatFacts.float_of_Z_small (int_sum (indices n))) as [fS HfS];
    [rewrite HB; nia|].
  destruct (FloatFacts.float_of_Z_small (index_denominator n)) as [fD HfD];
    [rewrite HB; nia|].
  exists fN, fS, fD. repeat split; try assumption.
  - apply (FloatFacts.float_of_Z_nonzero N); [lia|assumption].
  - apply (FloatFacts.float_of_Z_nonzero (index_denominator n)); [lia|assumption].
  - apply Z.eqb_neq. lia.
Qed.

Lemma regression_with_nan :
  linear_regression (range n) (map Flt ys) = Ok (nan, nan).
Proof.
  destruct index_floats as (fN & fS & fD & HfN & HfS & HfD & HzN & HzD & Hg).
  unfold linear_regression.
  rewrite IntFacts.sum_range, sum_with_nan, products_with_nan,
    IntFacts.sum_squares_range.
  cbn [bind]. unfold len. rewrite IndexFacts.length_range. fold N.
  cbn [mul pow2 sub bind].
  change (N * int_sum (map (fun z => z * z) (indices n))
          - int_sum (indices n) * int_sum (indices n))
    with (index_denominator n).
  rewrite Hg. cbn [as_float]. rewrite HfN, HfS. cbn [bind sub as_float].
  rewrite !mul_nan_r, sub_nan_l.
  unfold truediv. cbn [as_float bind]. rewrite HfD. cbn [bind]. rewrite HzD.
  cbn [bind mul as_float sub].
  rewrite div_nan_l, mul_nan_l, sub_nan_l. rewrite ?HfN. cbn [bind].
  rewrite HzN, div_nan_l. reflexivity.
Qed.

Lemma correlation_with_nan :
  pearson_correlation (range n) (map Flt ys) = Ok nan.
Proof.
  destruct index_floats as (fN & fS & fD & HfN & HfS & HfD & HzN & HzD & Hg).
  unfold pearson_correlation.
  rewrite IntFacts.sum_range, sum_with_nan, products_with_nan,
    IntFacts.sum_squares_range, squares_with_nan.
  cbn [bind]. unfold len. rewrite IndexFacts.length_range. fold N.
  cbn [mul pow2 sub bind as_float]. rewrite HfN, HfS. cbn [bind sub as_float].
  rewrite !mul_nan_r, sub_nan_l.
  change (is_nan nan) with true. cbn [bind sub as_float]. rewrite sub_nan_l.
  change (N * int_sum (map (fun z => z * z) (indices n))
          - int_sum (indices n) * int_sum (indices n))
    with (index_denominator n).
  rewrite HfD. cbn [bind]. rewrite mul_nan_r. reflexivity.
Qed.

Lemma statistics_with_nan : statistics ys = Ok (nan, nan, nan).
Proof.
  unfold statistics. fold n.
  now rewrite regression_with_nan, correlation_with_nan.
Qed.

End WithNan.
End NanRun.

(** X8.  A NaN among the values is not reported as an error.  When the file
    parses to at least two values of which one is NaN, and no value has a
    square that overflows, slope, intercept and correlation are all NaN; the
    run prints them as [nan] on the two result lines and the exit code is
    0. *)
Theorem nan_in_the_data_prints_nan
  (fs : file_system) (prog path : string) (ys : list float) :
  parse_file fs path = Ok ys ->
  (2 <= List.length ys)%nat ->
  (Z.of_nat (List.length ys) < 2 ^ 255)%Z ->
  In nan ys ->
  Forall (fun v => square_overflows v = false) ys ->
  statistics ys = Ok (nan, nan, nan)
  /\ run fs [prog; path]
     = {| out := ["Linear Regression Line: y = nanx + nan";
                  "Pearson Correlation Coefficient: nan"];
          err := [];
          exit_code := 0 |}.
Proof.
  intros Hp Hn Hb Hnan Hsq.
  assert (Hs := NanRun.statistics_with_nan ys Hn Hb Hnan Hsq).
  split; [assumption|].
  destruct ys as [|v vs]; [simpl in Hn; lia|].
  now rewrite (MainFacts.run_computed fs prog path v vs nan nan nan Hp Hs).
Qed.

Lemma nan_in_the_data_prints_nan_witness :
  run_on (file_of ["1"; "nan"; "2"])
  = {| out := ["Linear Regression Line: y = nanx + nan";
               "Pearson Correlation Coefficient: nan"];
       err := [];
       exit_code := 0 |}.
Proof.
  apply (nan_in_the_data_prints_nan
           (one_file data (file_of ["1"; "nan"; "2"])) script data
           [1; nan; 2]%float eq_refl).
  - simpl. lia.
  - reflexivity.
  - right. left. reflexivity.
  - repeat constructor.
Defined.

Module SymmetryFacts.
Import FloatFacts.

(** The product of two floats does not depend on their order. *)
Lemma SFmul_comm a b : SFmul prec emax a b = SFmul prec emax b a.
Proof.
  destruct a as [sa|sa| |sa ma ea], b as [sb|sb| |sb mb eb]; cbn [SFmul];
    rewrite ?(xorb_comm sa sb); try reflexivity.
  now rewrite Pos.mul_comm, Z.add_comm.
Qed.

Lemma mul_comm (a b : float) : (a * b = b * a)%float.
Proof.
  apply Prim2SF_inj. rewrite !mul_spec. apply SFmul_comm.
Qed.

(** The sum of the products, the two lists exchanged. *)
Lemma products_exchanged xs : forall ys acc,
  sum_from (fun '(x_i, y_i) => mul x_i y_i) (combine (map Flt xs) (map Flt ys)) acc
  = sum_from (fun '(x_i, y_i) => mul x_i y_i) (combine (map Flt ys) (map Flt xs)) acc.
Proof.
  induction xs as [|a xs IH]; intros [|b ys] acc; try reflexivity.
  cbn [map combine sum_from mul as_float bind]. rewrite (mul_comm b a).
  destruct (add acc (Flt (a * b))) as [acc'|e]; cbn [bind]; [apply IH|reflexivity].
Qed.

Lemma pow2_cases v :
  (exists w, pow2 (Flt v) = Ok (Flt w)) \/ pow2 (Flt v) = Raise range_error.
Proof.
  unfold pow2. destruct (is_nan v); [left; now eexists|].
  destruct (is_infinity v); [left; now eexists|].
  destruct (is_infinity (v * v)); [now right|left; now eexists].
Qed.

(** A sum of squares of floats is a float, unless a square overflows. *)
Lemma squares_cases l : forall acc,
  (exists v, sum_from pow2 (map Flt l) (Flt acc) = Ok (Flt v))
  \/ sum_from pow2 (map Flt l) (Flt acc) = Raise range_error.
Proof.
  induction l as [|a l IH]; intros acc; [left; now eexists|].
  cbn [map sum_from]. destruct (pow2_cases a) as [[w ->]| ->]; [|now right].
  cbn [bind add as_float]. apply IH.
Qed.

Lemma sum_floats l : forall acc,
  exists v, sum_from Ok (map Flt l) (Flt acc) = Ok (Flt v).
Proof.
  induction l as [|a l IH]; intros acc; [now eexists|].
  cbn [map sum_from bind add as_float]. apply IH.
Qed.

Lemma products_floats xs : forall ys acc,
  exists v,
    sum_from (fun '(x_i, y_i) => mul x_i y_i) (combine (map Flt xs) (map Flt ys))
      (Flt acc) = Ok (Flt v).
Proof.
  induction xs as [|a xs IH]; intros [|b ys] acc; try (now eexists).
  cbn [map combine sum_from mul bind add as_float]. apply IH.
Qed.

(** The variance term over a float sum and a float sum of squares. *)
Lemma variance_cases fN s ss :
  (exists v, (a <- Ok (Flt (fN * ss)) ;; b <- pow2 (Flt s) ;; sub a b) = Ok (Flt v))
  \/ (a <- Ok (Flt (fN * ss)) ;; b <- pow2 (Flt s) ;; sub a b) = Raise range_error.
Proof.
  cbn [bind]. destruct (pow2_cases s) as [[w ->]| ->]; [left|now right].
  cbn [bind sub as_float]. now eexists.
Qed.

(** The sums of a list of floats that is not empty. *)
Lemma sum_nonempty a l : exists v, sum (map Flt (a :: l)) = Ok (Flt v).
Proof.
  unfold sum, sum_gen. cbn [map sum_from bind].
  change (add (Int 0) (Flt a)) with (Ok (Flt (0 + a))). cbn [bind].
  apply sum_floats.
Qed.

Lemma products_nonempty a xs b ys :
  exists v,
    sum_gen (fun '(x_i, y_i) => mul x_i y_i)
      (combine (map Flt (a :: xs)) (map Flt (b :: ys))) = Ok (Flt v).
Proof.
  unfold sum_gen. cbn [map combine sum_from mul as_float bind].
  change (add (Int 0) (Flt (a * b))) with (Ok (Flt (0 + a * b))). cbn [bind].
  apply products_floats.
Qed.

Lemma squares_nonempty a l :
  (exists v, sum_gen pow2 (map Flt (a :: l)) = Ok (Flt v))
  \/ sum_gen pow2 (map Flt (a :: l)) = Raise range_error.
Proof.
  unfold sum_gen. cbn [map sum_from].
  destruct (pow2_cases a) as [[w ->]| ->]; [|now right].
  cbn [bind]. change (add (Int 0) (Flt w)) with (Ok (Flt (0 + w))). cbn [bind].
  apply squares_cases.
Qed.

(** The correlation of two lists of floats of the same length does not
    depend on their order. *)
Lemma correlation_exchanged xs ys :
  List.length xs = List.length ys ->
  pearson_correlation (map Flt xs) (map Flt ys)
  = pearson_correlation (map Flt ys) (map Flt xs).
Proof.
  intros Hlen.
  destruct xs as [|a xs], ys as [|b ys]; try discriminate; [reflexivity|].
  unfold pearson_correlation.
  assert (Hn : len (map Flt (b :: ys)) = len (map Flt (a :: xs)))
    by (unfold len; now rewrite !length_map, Hlen).
  rewrite Hn.
  assert (Hxy : sum_gen (fun '(x_i, y_i) => mul x_i y_i)
                  (combine (map Flt (b :: ys)) (map Flt (a :: xs)))
                = sum_gen (fun '(x_i, y_i) => mul x_i y_i)
                    (combine (map Flt (a :: xs)) (map Flt (b :: ys))))
    by (symmetry; apply products_exchanged).
  rewrite Hxy.
  destruct (sum_nonempty a xs) as [sx ->].
  destruct (sum_nonempty b ys) as [sy ->].
  destruct (products_nonempty a xs b ys) as [sxy ->].
  cbn [bind].
  destruct (squares_nonempty a xs) as [[sxx ->]| ->];
    destruct (squares_nonempty b ys) as [[syy ->]| ->];
    cbn [bind]; try reflexivity.
  unfold len. cbn [mul as_float].
  destruct (float_of_Z (Z.of_nat (List.length (map Flt (a :: xs))))) as [fN|e];
    cbn [bind]; [|reflexivity].
  rewrite (mul_comm sy sx). cbn [sub as_float bind].
  destruct (pow2_cases sx) as [[px ->]| ->];
    destruct (pow2_cases sy) as [[py ->]| ->];
    cbn [bind sub as_float]; try reflexivity.
  cbn [mul as_float bind].
  now rewrite (mul_comm (fN * syy - py) (fN * sxx - px)).
Qed.

End SymmetryFacts.

(** X7.  [pearson_correlation] is symmetric: for two lists of floats of the
    same length, exchanging them changes neither the value returned nor the
    exception raised. *)
Theorem correlation_is_symmetric (xs ys : list float) :
  List.length xs = List.length ys ->
  pearson_correlation (map Flt xs) (map Flt ys)
  = pearson_correlation (map Flt ys) (map Flt xs).
Proof. exact (SymmetryFacts.correlation_exchanged xs ys). Qed.

Lemma correlation_is_symmetric_witness :
  pearson_correlation [Flt 1; Flt 2; Flt 4] [Flt 0.5; Flt 0.125; Flt 7]
  = pearson_correlation [Flt 0.5; Flt 0.125; Flt 7] [Flt 1; Flt 2; Flt 4].
Proof.
  exact (correlation_is_symmetric [1; 2; 4]%float [0.5; 0.125; 7]%float eq_refl).
Defined.

Module ConcatFacts.

Lemma texts_app l1 l2 : texts (l1 ++ l2) = (texts l1 ++ texts l2)%list.
Proof. unfold texts. now rewrite map_app, filter_app. Qed.

(** A list the loop accepts holds numbers and blank lines only. *)
Lemma parsed_texts lines : forall line_no values vs,
  parse_lines line_no lines values = Ok vs ->
  exists ws, map float_of_str (texts lines) = map Some ws
             /\ vs = (values ++ ws)%list.
Proof.
  induction lines as [|line rest IH]; intros line_no values vs H.
  - injection H as <-. exists []. now rewrite app_nil_r.
  - rewrite ParseFacts.texts_cons. cbn [parse_lines] in H. unfold blank.
    destruct (is_empty (strip line)); [now apply IH in H|].
    destruct (float_of_str (strip line)) as [v|] eqn:Hv; [|discriminate].
    apply IH in H as (ws & Hws & ->). exists (v :: ws).
    split; [cbn [map]; now rewrite Hv, Hws|now rewrite <- app_assoc].
Qed.

End ConcatFacts.

(** X3.  Parsing the lines of one file followed by the lines of another.
    When the first file fails, the whole fails with the same error.  When both
    parse, the whole parses to the values of the first followed by the values
    of the second.  When the first parses and the second fails at a line, the
    whole fails at the same line with the same text, its number moved by the
    number of lines of the first file. *)
Theorem files_one_after_the_other
  (fs : file_system) (first second both : string) (l1 l2 : list string) :
  fs first = Ok l1 -> fs second = Ok l2 -> fs both = Ok (l1 ++ l2)%list ->
  (forall e, parse_file fs first = Raise e -> parse_file fs both = Raise e)
  /\ (forall v1 v2,
         parse_file fs first = Ok v1 -> parse_file fs second = Ok v2 ->
         parse_file fs both = Ok (v1 ++ v2)%list)
  /\ (forall v1 before bad after vs,
         parse_file fs first = Ok v1 ->
         l2 = (before ++ bad :: after)%list ->
         map float_of_str (texts before) = map Some vs ->
         blank bad = false -> float_of_str (strip bad) = None ->
         parse_file fs second
         = Raise (ValueError ("Unable to parse line "
                                ++ str_of_nat (S (List.length before))
                                ++ ": '" ++ strip bad ++ "'"))
         /\ parse_file fs both
            = Raise (ValueError ("Unable to parse line "
                                   ++ str_of_nat (S (List.length l1 + List.length before))
                                   ++ ": '" ++ strip bad ++ "'"))).
Proof.
  intros H1 H2 H12. unfold parse_file. rewrite H1, H2, H12. cbn [bind].
  split; [|split].
  - intros e He.
    destruct (OutcomeFacts.first_bad_line l1) as [(vs & H)|(before & bad & after & vs & -> & H & Hb & Hn)].
    + rewrite (ParseFacts.parse_lines_texts l1 1 [] vs H) in He. discriminate.
    + rewrite (ParseFacts.parse_lines_stops before 1 [] vs bad after H Hb Hn) in He.
      rewrite <- app_assoc, <- app_comm_cons.
      now rewrite (ParseFacts.parse_lines_stops before 1 [] vs bad (after ++ l2) H Hb Hn).
  - intros v1 v2 Hv1 Hv2.
    apply ConcatFacts.parsed_texts in Hv1 as (w1 & Hw1 & ->).
    apply ConcatFacts.parsed_texts in Hv2 as (w2 & Hw2 & ->).
    cbn [app].
    apply (ParseFacts.parse_lines_texts (l1 ++ l2) 1 [] (w1 ++ w2)).
    now rewrite ConcatFacts.texts_app, !map_app, Hw1, Hw2.
  - intros v1 before bad after vs Hv1 -> Hvs Hb Hn.
    split; [now apply (ParseFacts.parse_lines_stops before 1 [] vs)|].
    apply ConcatFacts.parsed_texts in Hv1 as (w1 & Hw1 & ->).
    rewrite app_assoc.
    rewrite (ParseFacts.parse_lines_stops (l1 ++ before) 1 [] (w1 ++ vs) bad after);
      [now rewrite length_app| |assumption|assumption].
    now rewrite ConcatFacts.texts_app, !map_app, Hw1, Hvs.
Qed.

Lemma files_one_after_the_other_witness :
  let fs := fun path =>
              if path =? "a" then Ok (file_of ["1"; "2"])
              else if path =? "b" then Ok (file_of [""; "3"; "x"])
              else Ok (file_of ["1"; "2"; ""; "3"; "x"]) in
  parse_file fs "a" = Ok [1%float; 2%float]
  /\ parse_file fs "b" = Raise (ValueError "Unable to parse line 3: 'x'")
  /\ parse_file fs "ab" = Raise (ValueError "Unable to parse line 5: 'x'").
Proof.
  split; [reflexivity|].
  exact (proj2 (proj2 (files_one_after_the_other
           (fun path =>
              if path =? "a" then Ok (file_of ["1"; "2"])
              else if path =? "b" then Ok (file_of [""; "3"; "x"])
              else Ok (file_of ["1"; "2"; ""; "3"; "x"]))
           "a" "b" "ab" (file_of ["1"; "2"]) (file_of [""; "3"; "x"])
           eq_refl eq_refl eq_refl))
           [1%float; 2%float] (file_of [""; "3"]) ("x" ++ newline) [] [3%float]
           eq_refl eq_refl eq_refl eq_refl eq_refl).
Defined.

Module ShiftFacts.
Local Open Scope Z_scope.

Lemma sum_shifted c l :
  int_sum (map (Z.add c) l) = Z.of_nat (List.length l) * c + int_sum l.
Proof.
  induction l as [|a l IH]; [cbn; lia|].
  cbn [map int_sum fold_right List.length]. unfold int_sum in IH. rewrite IH.
  rewrite Nat2Z.inj_succ. ring.
Qed.

Lemma squares_shifted c l :
  int_sum (map (fun z => z * z) (map (Z.add c) l))
  = int_sum (map (fun z => z * z) l) + 2 * c * int_sum l
    + Z.of_nat (List.length l) * (c * c).
Proof.
  induction l as [|a l IH]; [cbn; lia|].
  cbn [map int_sum fold_right List.length]. unfold int_sum in IH. rewrite IH.
  rewrite Nat2Z.inj_succ. unfold int_sum. ring.
Qed.

Lemma products_shifted c d xs : forall ys,
  List.length xs = List.length ys ->
  int_sum (map (fun p => fst p * snd p) (combine (map (Z.add c) xs) (map (Z.add d) ys)))
  = int_sum (map (fun p => fst p * snd p) (combine xs ys))
    + d * int_sum xs + c * int_sum ys + Z.of_nat (List.length xs) * (c * d).
Proof.
  induction xs as [|a xs IH]; intros [|b ys] Hlen; try discriminate; [cbn; lia|].
  cbn [map combine int_sum fold_right List.length fst snd].
  injection Hlen as Hlen. specialize (IH ys Hlen). unfold int_sum in IH. rewrite IH.
  rewrite Nat2Z.inj_succ. unfold int_sum. ring.
Qed.

(** Moving all the values by the same amount changes neither the spread nor
    the covariation. *)
Lemma spread_shifted c l : spread (map (Z.add c) l) = spread l.
Proof.
  unfold spread. rewrite squares_shifted, sum_shifted, length_map. ring.
Qed.

Lemma covariation_shifted c d xs ys :
  List.length xs = List.length ys ->
  covariation (map (Z.add c) xs) (map (Z.add d) ys) = covariation xs ys.
Proof.
  intros Hlen. unfold covariation.
  rewrite (products_shifted c d xs ys Hlen), !sum_shifted, length_map, <- Hlen. ring.
Qed.

(** The regression of integer sequences: the guard on the spread of [x], the
    slope the quotient of covariation and spread. *)
Lemma regression_of_spread xs ys :
  linear_regression (map Int xs) (map Int ys)
  = if all_same xs then Raise regression_error
    else m <- truediv (Int (covariation xs ys)) (Int (spread xs)) ;;
         b <- intercept_of (Int (Z.of_nat (List.length xs)))
                (Int (int_sum xs)) (Int (int_sum ys)) m ;;
         Ok (m, b).
Proof.
  assert (Hmul : forall a b, mul (Int a) (Int b) = Ok (Int (a * b))) by reflexivity.
  assert (Hsub : forall a b, sub (Int a) (Int b) = Ok (Int (a - b))) by reflexivity.
  unfold linear_regression.
  rewrite !IntFacts.sum_ints, IntFacts.sum_products_ints, IntFacts.sum_squares_ints.
  unfold len. rewrite length_map.
  cbn [bind]. rewrite Hmul. cbn [bind pow2]. rewrite Hsub. cbn [bind].
  change (Z.of_nat (List.length xs) * int_sum (map (fun z => z * z) xs)
          - int_sum xs * int_sum xs) with (spread xs).
  rewrite IntegerFacts.eq_zero_spread.
  destruct (all_same xs); [reflexivity|].
  rewrite !Hmul. cbn [bind]. rewrite Hsub. cbn [bind].
  change (Z.of_nat (List.length xs)
          * int_sum (map (fun p => fst p * snd p) (combine xs ys))
          - int_sum xs * int_sum ys) with (covariation xs ys).
  unfold intercept_of.
  SumFacts.same_steps.
Qed.

Lemma all_same_shifted c l : all_same (map (Z.add c) l) = all_same l.
Proof.
  rewrite <- !IntegerFacts.eq_zero_spread. now rewrite spread_shifted.
Qed.

End ShiftFacts.

(** X6.  Adding a constant to all the x values and another to all the y
    values of two integer sequences of the same length changes nothing that
    is computed in integers: the correlation is the same, value or exception,
    the regression raises the degenerate-input error for the one if and only
    if it does for the other, and when both regressions return, the slopes
    are equal. *)
Theorem integers_moved_along_the_axes (xs ys : list Z) (c d : Z) :
  List.length xs = List.length ys ->
  let xs' := map (Z.add c) xs in
  let ys' := map (Z.add d) ys in
  pearson_correlation (map Int xs') (map Int ys')
  = pearson_correlation (map Int xs) (map Int ys)
  /\ (linear_regression (map Int xs') (map Int ys') = Raise regression_error
      <-> linear_regression (map Int xs) (map Int ys) = Raise regression_error)
  /\ (forall m b m' b',
         linear_regression (map Int xs) (map Int ys) = Ok (m, b) ->
         linear_regression (map Int xs') (map Int ys') = Ok (m', b') ->
         m' = m).
Proof.
  intros Hlen xs' ys'.
  assert (Hlen' : List.length xs' = List.length ys')
    by (unfold xs', ys'; now rewrite !length_map).
  split; [|split].
  - rewrite (CorrelationFacts.correlation_of_spreads xs' ys' Hlen').
    rewrite (CorrelationFacts.correlation_of_spreads xs ys Hlen).
    unfold xs', ys'.
    now rewrite !ShiftFacts.spread_shifted, (ShiftFacts.covariation_shifted c d xs ys Hlen).
  - assert (Hs : all_same xs' = all_same xs) by apply ShiftFacts.all_same_shifted.
    split; intros H.
    + destruct (all_same xs) eqn:Hc;
        [now apply IntegerFacts.constant_integers_raise|].
      now apply IntegerFacts.varying_passes_guard in H.
    + destruct (all_same xs') eqn:Hc;
        [now apply IntegerFacts.constant_integers_raise|].
      symmetry in Hs. now apply (IntegerFacts.varying_passes_guard xs) in H.
  - intros m b m' b'. rewrite !ShiftFacts.regression_of_spread. unfold xs', ys'.
    rewrite ShiftFacts.all_same_shifted, ShiftFacts.spread_shifted,
      (ShiftFacts.covariation_shifted c d xs ys Hlen).
    destruct (all_same xs); [discriminate|].
    destruct (truediv (Int (covariation xs ys)) (Int (spread xs))) as [q|e];
      cbn [bind]; [|discriminate].
    intros H H'.
    apply MonadFacts.bind_Ok in H as (? & _ & [= <- _]).
    apply MonadFacts.bind_Ok in H' as (? & _ & [= <- _]).
    reflexivity.
Qed.

Lemma integers_moved_along_the_axes_witness :
  pearson_correlation [Int 11; Int 12; Int 14] [Int (-3); Int (-1); Int 2]
  = pearson_correlation [Int 1; Int 2; Int 4] [Int 2; Int 4; Int 7].
Proof.
  exact (proj1 (integers_moved_along_the_axes
                  [1; 2; 4]%Z [2; 4; 7]%Z 10 (-5) eq_refl)).
Defined.
